(** * Fast-doubling Fibonacci over GMP integers: a shallow embedding of
      [fibonacci.c] and the properties of its engine and command line. *)

From Equations Require Import Equations.
From Stdlib Require Import ZArith NArith List Lia Bool String Ascii.
From Stdlib Require Import DecimalString.
From Stdlib Require Decimal DecimalFacts DecimalPos DecimalN.
Import ListNotations.

Local Open Scope Z_scope.

(** ** GMP cells of one activation of [fast_fib_calc]

    An [mpz_t] is an unbounded integer, so a cell holds a [Z].  One
    activation of [fast_fib_calc] sees six cells: the two output
    parameters [A], [B] and the four locals [F0], [F1], [TEMP], [F0_Q]. *)

Inductive cell : Type := cA | cB | cF0 | cF1 | cTEMP | cF0_Q.

Definition cell_eqb (x y : cell) : bool :=
  match x, y with
  | cA, cA | cB, cB | cF0, cF0 | cF1, cF1 | cTEMP, cTEMP | cF0_Q, cF0_Q => true
  | _, _ => false
  end.

Record frame : Type := Frame {
  rA : Z; rB : Z; rF0 : Z; rF1 : Z; rTEMP : Z; rF0_Q : Z
}.

Definition get (c : cell) (fr : frame) : Z :=
  match c with
  | cA => rA fr | cB => rB fr | cF0 => rF0 fr
  | cF1 => rF1 fr | cTEMP => rTEMP fr | cF0_Q => rF0_Q fr
  end.

Definition set (c : cell) (v : Z) (fr : frame) : frame :=
  match c with
  | cA => Frame v (rB fr) (rF0 fr) (rF1 fr) (rTEMP fr) (rF0_Q fr)
  | cB => Frame (rA fr) v (rF0 fr) (rF1 fr) (rTEMP fr) (rF0_Q fr)
  | cF0 => Frame (rA fr) (rB fr) v (rF1 fr) (rTEMP fr) (rF0_Q fr)
  | cF1 => Frame (rA fr) (rB fr) (rF0 fr) v (rTEMP fr) (rF0_Q fr)
  | cTEMP => Frame (rA fr) (rB fr) (rF0 fr) (rF1 fr) v (rF0_Q fr)
  | cF0_Q => Frame (rA fr) (rB fr) (rF0 fr) (rF1 fr) (rTEMP fr) v
  end.

(** The GMP calls that [fast_fib_calc] makes, with the destination first
    as in GMP. *)
Inductive mpz_op : Type :=
| mpz_set_ui (rop : cell) (v : Z)
| mpz_mul_2exp (rop op1 : cell) (k : Z)
| mpz_sub (rop op1 op2 : cell)
| mpz_mul (rop op1 op2 : cell)
| mpz_add (rop op1 op2 : cell)
| mpz_swap (c1 c2 : cell).

Definition exec_op (o : mpz_op) (fr : frame) : frame :=
  match o with
  | mpz_set_ui rop v => set rop v fr
  | mpz_mul_2exp rop op1 k => set rop (Z.shiftl (get op1 fr) k) fr
  | mpz_sub rop op1 op2 => set rop (get op1 fr - get op2 fr) fr
  | mpz_mul rop op1 op2 => set rop (get op1 fr * get op2 fr) fr
  | mpz_add rop op1 op2 => set rop (get op1 fr + get op2 fr) fr
  | mpz_swap c1 c2 => set c2 (get c1 fr) (set c1 (get c2 fr) fr)
  end.

Definition run (ops : list mpz_op) (fr : frame) : frame :=
  fold_left (fun f o => exec_op o f) ops fr.

(** Cells an operation reads and writes. *)
Definition reads (o : mpz_op) : list cell :=
  match o with
  | mpz_set_ui _ _ => []
  | mpz_mul_2exp _ op1 _ => [op1]
  | mpz_sub _ op1 op2 | mpz_mul _ op1 op2 | mpz_add _ op1 op2 => [op1; op2]
  | mpz_swap c1 c2 => [c1; c2]
  end.

Definition writes (o : mpz_op) : list cell :=
  match o with
  | mpz_set_ui rop _ | mpz_mul_2exp rop _ _ => [rop]
  | mpz_sub rop _ _ | mpz_mul rop _ _ | mpz_add rop _ _ => [rop]
  | mpz_swap c1 c2 => [c1; c2]
  end.

Definition mem_cell (c : cell) (l : list cell) : bool := existsb (cell_eqb c) l.

Definition disjoint_cells (l1 l2 : list cell) : bool :=
  forallb (fun c => negb (mem_cell c l2)) l1.

(** Two operations do not interfere when neither writes a cell the other
    reads or writes. *)
Definition indep (o1 o2 : mpz_op) : bool :=
  disjoint_cells (writes o1) (reads o2 ++ writes o2)
  && disjoint_cells (writes o2) (reads o1).

(** ** The body of [fast_fib_calc] *)

(** Lines 53-54: the base case, which returns before any local exists. *)
Definition base_case : list mpz_op := [mpz_set_ui cA 0; mpz_set_ui cB 1].

(** Lines 72-80: first [omp section]. *)
Definition section_1 : list mpz_op :=
  [ mpz_mul_2exp cTEMP cF1 1;
    mpz_sub cTEMP cTEMP cF0;
    mpz_mul cA cF0 cTEMP ].

(** Lines 81-89: second [omp section]. *)
Definition section_2 : list mpz_op :=
  [ mpz_mul cB cF1 cF1;
    mpz_mul cF0_Q cF0 cF0;
    mpz_add cB cB cF0_Q ].

(** Lines 95-96: the correction for odd [N]. *)
Definition odd_fix : list mpz_op := [mpz_swap cA cB; mpz_add cB cB cA].

(** The frame after [mpz_init] of the four locals (each starts at 0) and
    the recursive call, which has filled [F0] and [F1]. *)
Definition enter (A B : Z) (child : Z * Z) : frame :=
  Frame A B (fst child) (snd child) 0 0.

(** Lines 93-97. *)
Definition parity_correction (n : N) (fr : frame) : frame :=
  if negb (N.modulo n 2 =? 0)%N then run odd_fix fr else fr.

Definition outputs (fr : frame) : Z * Z := (rA fr, rB fr).

(** Lines 58-103 once the child call has returned [child]: the two
    sections in program order, then the parity correction. *)
Definition doubling_step (n : N) (A B : Z) (child : Z * Z) : Z * Z :=
  outputs (parity_correction n (run (section_1 ++ section_2) (enter A B child))).

(** [fast_fib_calc N A B]: [N] is the [unsigned long] index, [A] and [B]
    the contents of the two output cells at the call; the result is their
    contents at return.  The recursive call receives freshly initialised
    cells. *)
Equations? fast_fib_calc (n : N) (A B : Z) : Z * Z by wf (N.to_nat n) lt :=
  fast_fib_calc n A B with N.eq_dec n 0 => {
    | left _ => outputs (run base_case (Frame A B 0 0 0 0));
    | right _ => doubling_step n A B (fast_fib_calc (n / 2) 0 0) }.
Proof.
  assert (n / 2 < n)%N by (apply N.div_lt; lia). lia.
Qed.


(** Line 70: the [if] clause of the [parallel sections] pragma. *)
Definition omp_threshold : N := 50000000.

(** An interleaving of two instruction streams: [true] lets the first
    stream issue its next operation, [false] the second; when the choices
    run out the first stream finishes before the second. *)
Fixpoint merge (sched : list bool) (l1 l2 : list mpz_op) : list mpz_op :=
  match sched with
  | [] => l1 ++ l2
  | true :: sched' =>
      match l1 with
      | [] => l2
      | o :: l1' => o :: merge sched' l1' l2
      end
  | false :: sched' =>
      match l2 with
      | [] => l1
      | o :: l2' => o :: merge sched' l1 l2'
      end
  end.

(** What the run time may do with the two sections of lines 70-90:
    [threshold] stands for the constant of the [if] clause, [schedule]
    gives the interleaving of the two threads at a level that is split,
    [first_section_first] the order in which a single thread takes the
    two sections at a level that is not. *)
Record omp_config : Type := {
  threshold : N;
  schedule : N -> list bool;
  first_section_first : N -> bool
}.

Definition omp_sections (cfg : omp_config) (n : N) : list mpz_op :=
  if (threshold cfg <=? n)%N then merge (schedule cfg n) section_1 section_2
  else if first_section_first cfg n then section_1 ++ section_2
       else section_2 ++ section_1.

Definition doubling_step_omp (cfg : omp_config) (n : N) (A B : Z)
    (child : Z * Z) : Z * Z :=
  outputs (parity_correction n (run (omp_sections cfg n) (enter A B child))).

(** [fast_fib_calc] as compiled with OpenMP, under the configuration [cfg]. *)
Equations? fast_fib_calc_omp (cfg : omp_config) (n : N) (A B : Z) : Z * Z
    by wf (N.to_nat n) lt :=
  fast_fib_calc_omp cfg n A B with N.eq_dec n 0 => {
    | left _ => outputs (run base_case (Frame A B 0 0 0 0));
    | right _ => doubling_step_omp cfg n A B (fast_fib_calc_omp cfg (n / 2) 0 0) }.
Proof.
  assert (n / 2 < n)%N by (apply N.div_lt; lia). lia.
Qed.

(** [fast_fib_calc] on a call stack that holds at most [frames]
    activations: [None] when the chain of calls needs more. *)
Fixpoint fast_fib_calc_stack (frames : nat) (n : N) (A B : Z) : option (Z * Z) :=
  match frames with
  | O => None
  | S frames' =>
      if (n =? 0)%N then Some (outputs (run base_case (Frame A B 0 0 0 0)))
      else
        match fast_fib_calc_stack frames' (n / 2) 0 0 with
        | Some child => Some (doubling_step n A B child)
        | None => None
        end
  end.

(** The arguments of the successive activations, outermost first. *)
Equations? call_chain (n : N) : list N by wf (N.to_nat n) lt :=
  call_chain n with N.eq_dec n 0 => {
    | left _ => [n];
    | right _ => n :: call_chain (n / 2) }.
Proof.
  assert (n / 2 < n)%N by (apply N.div_lt; lia). lia.
Qed.

(** ** The linear recurrence, as the specification words it:
    F(0)=0, F(1)=1, F(n)=F(n-1)+F(n-2). *)
Fixpoint fib (n : nat) : Z :=
  match n with
  | O => 0
  | S m =>
      match m with
      | O => 1
      | S k => fib m + fib k
      end
  end.

(** The depth the specification gives for the call chain. *)
Definition spec_depth (n : N) : N := N.log2_up n + 1.

(** The depth the call chain has. *)
Definition depth (n : N) : N := N.log2_up (n + 1) + 1.


(** ** Text and the C library

    [printf] conversions and the library calls of the command line are
    modelled on strings; a line feed is the character 10. *)

Definition nl : string := String (ascii_of_nat 10) EmptyString.

(** [%lu] and [%zu]. *)
Definition dec_N (n : N) : string := NilZero.string_of_uint (N.to_uint n).

(** [mpz_get_str(NULL, 10, a)]. *)
Definition mpz_get_str (a : Z) : string := NilZero.string_of_int (Z.to_int a).

(** The number of decimal digits of |a|. *)
Definition ndigits (a : Z) : N :=
  N.of_nat (String.length (mpz_get_str (Z.abs a))).

(** What GMP documents of [mpz_sizeinbase(a, 10)]: the number of digits of
    |a|, either exact or 1 too big. *)
Definition sizeinbase_contract (size : Z -> N) : Prop :=
  forall a, size a = ndigits a \/ size a = (ndigits a + 1)%N.

Fixpoint spaces (n : nat) : string :=
  match n with
  | O => EmptyString
  | S m => String " " (spaces m)
  end.

(** [%50s]: right-justified in at least [w] columns. *)
Definition pad_left (w : nat) (s : string) : string :=
  (spaces (w - String.length s) ++ s)%string.

(** [%.50s]: at most [n] characters. *)
Definition take (n : nat) (s : string) : string := substring 0 n s.

(** [s + n]: the text from offset [n] on. *)
Fixpoint drop (n : nat) (s : string) : string :=
  match n, s with
  | O, _ => s
  | S m, String _ r => drop m r
  | S _, EmptyString => EmptyString
  end.

Definition isspace (c : ascii) : bool :=
  let n := N_of_ascii c in
  (n =? 32)%N || ((9 <=? n)%N && (n <=? 13)%N).

Definition digit_val (c : ascii) : option Z :=
  let n := Z.of_N (N_of_ascii c) in
  if (48 <=? n) && (n <=? 57) then Some (n - 48) else None.

Fixpoint skip_space (s : string) : string :=
  match s with
  | String c r => if isspace c then skip_space r else s
  | EmptyString => s
  end.

(** The longest run of decimal digits at the front of [s]: its value on
    top of [acc], whether it has a digit at all, and what follows it. *)
Fixpoint read_digits (s : string) (acc : Z) (any : bool) : Z * bool * string :=
  match s with
  | String c r =>
      match digit_val c with
      | Some d => read_digits r (acc * 10 + d) true
      | None => (acc, any, s)
      end
  | EmptyString => (acc, any, s)
  end.

(** [unsigned long] of the LP64 targets the build line names. *)
Definition ULONG_MAX : Z := 2 ^ 64 - 1.

(** [strtoul(nptr, &ENDPTR, 10)] of ISO C: white space, an optional sign,
    digits; with no digit the value is 0 and [ENDPTR] is [nptr]; a value
    out of range gives [ULONG_MAX]; a minus sign negates the value in the
    unsigned type.  Returns the value and the text at [ENDPTR]. *)
Definition strtoul (nptr : string) : N * string :=
  let s := skip_space nptr in
  let '(neg, s') :=
    match s with
    | String "-" r => (true, r)
    | String "+" r => (false, r)
    | _ => (false, s)
    end in
  let '(v, any, rest) := read_digits s' 0 false in
  if negb any then (0%N, nptr)
  else if ULONG_MAX <? v then (Z.to_N ULONG_MAX, rest)
  else (Z.to_N (if neg then (- v) mod (ULONG_MAX + 1) else v), rest).

(** ** What the program does to the outside *)

Inductive event : Type :=
| Stdout (text : string)                 (* printf *)
| Stdout_time (format : string)          (* printf of measured times *)
| Compute (n : N)                        (* fast_fib_calc called by main *)
| Fopen (name : string) (ok : bool)      (* fopen(name, "w") and its outcome *)
| Fwrite (name text : string)            (* fprintf to the opened file *)
| Fclose (name : string).

Definition is_file_event (e : event) : bool :=
  match e with
  | Fopen _ _ | Fwrite _ _ | Fclose _ => true
  | _ => false
  end.

Definition is_fwrite (e : event) : bool :=
  match e with
  | Fwrite _ _ => true
  | _ => false
  end.

Definition is_compute (e : event) : bool :=
  match e with
  | Compute _ => true
  | _ => false
  end.

(** Lines 118-138: first and last digits by division and modulo. *)
Definition show_divmod (A : Z) (NUM_DIGITS : N) : list event :=
  let D := 10 ^ Z.of_N (NUM_DIGITS - 50) in
  let FIRST_DIGITS := mpz_get_str (A / D) in
  let D := 10 ^ 50 in
  let LAST_DIGITS := mpz_get_str (A mod D) in
  [ Stdout ("First ~50 digits: " ++ FIRST_DIGITS ++ nl);
    Stdout ("Last 50 digits:   " ++ pad_left 50 LAST_DIGITS ++ nl) ]%string.

Definition FILENAME (n : N) : string :=
  ("Fibonacci_" ++ dec_N n ++ ".txt")%string.

(** Lines 152-170: saving, given whether [fopen] succeeds. *)
Definition save_block (fopen_ok : string -> bool) (n : N) (FIB_STR : string)
    : list event :=
  let name := FILENAME n in
  [ Stdout ("Writing to file " ++ name ++ "... ")%string;
    Fopen name (fopen_ok name) ] ++
  (if fopen_ok name then
     [ Fwrite name ("F(" ++ dec_N n ++ ") = " ++ FIB_STR ++ nl)%string;
       Fclose name;
       Stdout ("Number saved to: " ++ name ++ nl)%string ]
   else
     [ Stdout ("failed." ++ nl)%string;
       Stdout ("Couldn't create file " ++ name ++ nl)%string ]).

(** Lines 174-186: display from the decimal string. *)
Definition show_string (FIB_STR : string) (NUM_DIGITS : N) : list event :=
  if (100 <? NUM_DIGITS)%N then
    [ Stdout ("First 50 digits: " ++ take 50 FIB_STR ++ nl);
      Stdout ("Last 50 digits:  "
              ++ drop (N.to_nat (NUM_DIGITS - 50)) FIB_STR ++ nl) ]%string
  else
    [ Stdout ("Full number: " ++ FIB_STR ++ nl)%string ].

Definition digits_line (n NUM_DIGITS : N) : event :=
  Stdout ("F(" ++ dec_N n ++ ") has " ++ dec_N NUM_DIGITS ++ " digits" ++ nl)%string.

Section Program.

(** [mpz_sizeinbase(., 10)] of the GMP in use, the file system's answer
    to [fopen(., "w")], and whether printing took more than a
    millisecond. *)
Variable mpz_sizeinbase : Z -> N.
Variable fopen_ok : string -> bool.
Variable io_slow : bool.

(** Lines 109-187. *)
Definition print_fib_info (A : Z) (n : N) (SAVE : bool) : list event :=
  let NUM_DIGITS := mpz_sizeinbase A in
  digits_line n NUM_DIGITS ::
  if (1000000 <? NUM_DIGITS)%N && negb SAVE then
    show_divmod A NUM_DIGITS
  else
    let FIB_STR :=
      if SAVE || (NUM_DIGITS <=? 100)%N || (NUM_DIGITS <=? 1000000)%N
      then Some (mpz_get_str A) else None in
    (match FIB_STR with
     | Some str => if SAVE then save_block fopen_ok n str else []
     | None => []
     end) ++
    (match FIB_STR with
     | Some str => show_string str NUM_DIGITS
     | None => []
     end).

(** Lines 191-202. *)
Definition print_usage (PROGRAM_NAME : string) : list event :=
  [ Stdout ("Usage: " ++ PROGRAM_NAME ++ " [-s] [-h] [N]" ++ nl);
    Stdout ("  -s             Save result to file (optional)" ++ nl);
    Stdout ("  -h             Show this help message" ++ nl);
    Stdout ("  N              Fibonacci number to compute (default: 20000000)" ++ nl);
    Stdout (nl ++ "Examples:" ++ nl);
    Stdout ("  " ++ PROGRAM_NAME ++ "             # Compute F(20000000), don't save" ++ nl);
    Stdout ("  " ++ PROGRAM_NAME ++ " -s          # Compute F(20000000), save to file" ++ nl);
    Stdout ("  " ++ PROGRAM_NAME ++ " -s 1000000  # Compute F(1000000), save to file" ++ nl);
    Stdout ("  " ++ PROGRAM_NAME ++ " 100         # Compute F(100), don't save" ++ nl)
  ]%string.

(** How the loop of lines 218-247 ends: it runs off the arguments, or
    leaves through one of its two [goto EXIT]. *)
Inductive parsed : Type :=
| Proceed (TARGET : N) (SAVE_TO_FILE : bool)
| Help
| Invalid (arg : string).

Fixpoint parse_args (args : list string) (TARGET : N) (SAVE_TO_FILE : bool)
    : parsed :=
  match args with
  | [] => Proceed TARGET SAVE_TO_FILE
  | arg :: args' =>
      if String.eqb arg "-s" then parse_args args' TARGET true
      else if String.eqb arg "-h" then Help
      else
        let '(PARSED, ENDPTR) := strtoul arg in
        if String.eqb ENDPTR "" && (0 <? PARSED)%N
        then parse_args args' PARSED SAVE_TO_FILE
        else Invalid arg
  end.

(** Lines 249-286. *)
Definition compute_and_report (TARGET : N) (SAVE_TO_FILE : bool) : list event :=
  [ Stdout ("Computing F(" ++ dec_N TARGET ++ ")..." ++ nl ++ nl)%string ] ++
  (if SAVE_TO_FILE then [ Stdout ("Result will be saved to file." ++ nl)%string ]
   else []) ++
  [ Compute TARGET ] ++
  (let FIB_N := fst (fast_fib_calc TARGET 0 0) in
   [ Stdout_time "Computation completed in %.6f seconds\n" ] ++
   print_fib_info FIB_N TARGET SAVE_TO_FILE ++
   [ Stdout (nl ++ "Performance summary:" ++ nl)%string;
     Stdout_time "  Computation: %.6f seconds (%.0f digits/second)\n" ] ++
   (if io_slow then [ Stdout_time "  System(I/O): %.6f seconds\n" ] else [])).

(** [main]: what it does, and the [RETURN_FLAG] it returns.  [argv]
    starts with the program name. *)
Definition main (argv : list string) : list event * Z :=
  let PROGRAM_NAME := hd EmptyString argv in
  match parse_args (tl argv) 20000000 false with
  | Proceed TARGET SAVE_TO_FILE => (compute_and_report TARGET SAVE_TO_FILE, 0)
  | Help => (print_usage PROGRAM_NAME, 0)
  | Invalid arg =>
      (Stdout ("Error: Invalid argument '" ++ arg ++ "'" ++ nl ++ nl)%string
         :: print_usage PROGRAM_NAME, 1)
  end.

End Program.

(** ** Auxiliary notions for the further properties *)

(** The GMP arithmetic calls one call of [fast_fib_calc] issues, in
    program order: those of the child call, then this level's. *)
Equations? fast_fib_calc_ops (n : N) : list mpz_op by wf (N.to_nat n) lt :=
  fast_fib_calc_ops n with N.eq_dec n 0 => {
    | left _ => base_case;
    | right _ =>
        fast_fib_calc_ops (n / 2) ++ section_1 ++ section_2
          ++ (if negb (N.modulo n 2 =? 0)%N then odd_fix else []) }.
Proof.
  assert (n / 2 < n)%N by (apply N.div_lt; lia). lia.
Qed.

Definition is_mul (o : mpz_op) : bool :=
  match o with
  | mpz_mul _ _ _ => true
  | _ => false
  end.

(** The value of a decimal numeral read from the left on top of [acc]. *)
Fixpoint uint_val (d : Decimal.uint) (acc : Z) : Z :=
  match d with
  | Decimal.Nil => acc
  | Decimal.D0 l => uint_val l (acc * 10 + 0)
  | Decimal.D1 l => uint_val l (acc * 10 + 1)
  | Decimal.D2 l => uint_val l (acc * 10 + 2)
  | Decimal.D3 l => uint_val l (acc * 10 + 3)
  | Decimal.D4 l => uint_val l (acc * 10 + 4)
  | Decimal.D5 l => uint_val l (acc * 10 + 5)
  | Decimal.D6 l => uint_val l (acc * 10 + 6)
  | Decimal.D7 l => uint_val l (acc * 10 + 7)
  | Decimal.D8 l => uint_val l (acc * 10 + 8)
  | Decimal.D9 l => uint_val l (acc * 10 + 9)
  end.

(** The first [k] digits of a numeral, the numeral without them, and
    whether a numeral starts with a digit other than 0. *)
Fixpoint uint_take (k : nat) (d : Decimal.uint) : Decimal.uint :=
  match k with
  | O => Decimal.Nil
  | S k' =>
      match d with
      | Decimal.Nil => Decimal.Nil
      | Decimal.D0 l => Decimal.D0 (uint_take k' l)
      | Decimal.D1 l => Decimal.D1 (uint_take k' l)
      | Decimal.D2 l => Decimal.D2 (uint_take k' l)
      | Decimal.D3 l => Decimal.D3 (uint_take k' l)
      | Decimal.D4 l => Decimal.D4 (uint_take k' l)
      | Decimal.D5 l => Decimal.D5 (uint_take k' l)
      | Decimal.D6 l => Decimal.D6 (uint_take k' l)
      | Decimal.D7 l => Decimal.D7 (uint_take k' l)
      | Decimal.D8 l => Decimal.D8 (uint_take k' l)
      | Decimal.D9 l => Decimal.D9 (uint_take k' l)
      end
  end.

Fixpoint uint_drop (k : nat) (d : Decimal.uint) : Decimal.uint :=
  match k with
  | O => d
  | S k' =>
      match d with
      | Decimal.Nil => Decimal.Nil
      | Decimal.D0 l | Decimal.D1 l | Decimal.D2 l | Decimal.D3 l
      | Decimal.D4 l | Decimal.D5 l | Decimal.D6 l | Decimal.D7 l
      | Decimal.D8 l | Decimal.D9 l => uint_drop k' l
      end
  end.

Definition head_nonzero (d : Decimal.uint) : bool :=
  match d with
  | Decimal.Nil | Decimal.D0 _ => false
  | _ => true
  end.

(** A text that starts with a character other than the digit 0. *)
Definition no_leading_zero (s : string) : Prop :=
  match s with
  | EmptyString => False
  | String c _ => c <> "0"%char
  end.

(** A text at which [read_digits] stops at once. *)
Definition stops (rest : string) : Prop :=
  match rest with
  | EmptyString => True
  | String c _ => digit_val c = None
  end.

(** The test of line 234 on one argument. *)
Definition is_index (arg : string) : bool :=
  String.eqb (snd (strtoul arg)) "" && (0 <? fst (strtoul arg))%N.

(** An argument the loop of lines 218-247 passes over without leaving. *)
Definition accepted (arg : string) : bool :=
  String.eqb arg "-s" || (negb (String.eqb arg "-h") && is_index arg).

(** What one accepted argument does to [TARGET]. *)
Definition next_target (TARGET : N) (arg : string) : N :=
  if String.eqb arg "-s" then TARGET else fst (strtoul arg).

(** What [main] does once the loop has left through the error exit. *)
Definition rejects (size : Z -> N) (fopen_ok : string -> bool) (io_slow : bool)
    (prog : string) (argv : list string) (arg : string) : Prop :=
  main size fopen_ok io_slow argv =
    (Stdout ("Error: Invalid argument '" ++ arg ++ "'" ++ nl ++ nl)%string
       :: print_usage prog, 1)
  /\ existsb is_compute (fst (main size fopen_ok io_slow argv)) = false
  /\ existsb is_file_event (fst (main size fopen_ok io_slow argv)) = false.

(** ** Cells and frames *)

Lemma cell_eqb_spec (x y : cell) : reflect (x = y) (cell_eqb x y).
Proof. destruct x, y; constructor; congruence. Qed.

Lemma get_set (c c' : cell) (v : Z) (fr : frame) :
  get c (set c' v fr) = if cell_eqb c c' then v else get c fr.
Proof. destruct c, c'; reflexivity. Qed.

Lemma frame_ext (fr1 fr2 : frame) :
  (forall c, get c fr1 = get c fr2) -> fr1 = fr2.
Proof.
  intros H. destruct fr1, fr2.
  pose proof (H cA); pose proof (H cB); pose proof (H cF0);
  pose proof (H cF1); pose proof (H cTEMP); pose proof (H cF0_Q).
  simpl in *. congruence.
Qed.

Lemma run_app (l1 l2 : list mpz_op) (fr : frame) :
  run (l1 ++ l2) fr = run l2 (run l1 fr).
Proof. apply fold_left_app. Qed.

Lemma run_cons (o : mpz_op) (l : list mpz_op) (fr : frame) :
  run (o :: l) fr = run l (exec_op o fr).
Proof. reflexivity. Qed.

(** ** Unfolding [fast_fib_calc] *)

Lemma fast_fib_calc_zero (A B : Z) : fast_fib_calc 0 A B = (0, 1).
Proof. reflexivity. Qed.

Lemma fast_fib_calc_pos (n : N) (A B : Z) :
  n <> 0%N ->
  fast_fib_calc n A B = doubling_step n A B (fast_fib_calc (n / 2) 0 0).
Proof.
  intros Hn. rewrite fast_fib_calc_equation_1.
  destruct (N.eq_dec n 0) as [E | E]; [contradiction | reflexivity].
Qed.

Lemma fast_fib_calc_omp_pos (cfg : omp_config) (n : N) (A B : Z) :
  n <> 0%N ->
  fast_fib_calc_omp cfg n A B =
  doubling_step_omp cfg n A B (fast_fib_calc_omp cfg (n / 2) 0 0).
Proof.
  intros Hn. rewrite fast_fib_calc_omp_equation_1.
  destruct (N.eq_dec n 0) as [E | E]; [contradiction | reflexivity].
Qed.

(** ** The recurrence and its doubling identities *)

Lemma fib_SS (n : nat) : fib (S (S n)) = fib (S n) + fib n.
Proof. reflexivity. Qed.

Lemma fib_add_S (m : nat) :
  forall n, fib (S (m + n)) = fib (S m) * fib (S n) + fib m * fib n.
Proof.
  enough (H : (forall n, fib (S (m + n)) = fib (S m) * fib (S n) + fib m * fib n)
            /\ (forall n, fib (S (S m + n)) =
                          fib (S (S m)) * fib (S n) + fib (S m) * fib n))
    by apply H.
  induction m as [| m [IH1 IH2]].
  - split; intros n.
    + change (fib 1) with 1. change (fib 0) with 0. simpl plus. ring.
    + change (1 + n)%nat with (S n). rewrite fib_SS.
      change (fib 2) with 1. change (fib 1) with 1. ring.
  - split; [exact IH2 |]. intros n.
    change (S (S (S m) + n)) with (S (S (S m + n))).
    rewrite fib_SS. change (S m + n)%nat with (S (m + n)).
    change (S (S (m + n))) with (S (S m + n)).
    rewrite IH2, IH1. rewrite (fib_SS (S m)), (fib_SS m). ring.
Qed.

Lemma fib_double (k : nat) :
  fib (2 * k) = fib k * (2 * fib (S k) - fib k).
Proof.
  destruct k as [| j]; [reflexivity |].
  replace (2 * S j)%nat with (S (j + S j)) by lia.
  rewrite fib_add_S, (fib_SS j). ring.
Qed.

Lemma fib_double_S (k : nat) :
  fib (S (2 * k)) = fib (S k) * fib (S k) + fib k * fib k.
Proof.
  replace (2 * k)%nat with (k + k)%nat by lia.
  rewrite fib_add_S. reflexivity.
Qed.

(** ** What the two sections and the correction compute *)

Lemma sections_outputs (A B F0 F1 : Z) :
  outputs (run (section_1 ++ section_2) (enter A B (F0, F1))) =
  (F0 * (Z.shiftl F1 1 - F0), F1 * F1 + F0 * F0).
Proof. reflexivity. Qed.

Lemma odd_fix_outputs (fr : frame) :
  outputs (run odd_fix fr) = (rB fr, rA fr + rB fr).
Proof. reflexivity. Qed.

Lemma doubling_step_even (n : N) (A B F0 F1 : Z) :
  (n mod 2 = 0)%N ->
  doubling_step n A B (F0, F1) =
  (F0 * (Z.shiftl F1 1 - F0), F1 * F1 + F0 * F0).
Proof.
  intros H. unfold doubling_step, parity_correction.
  rewrite H. reflexivity.
Qed.

Lemma doubling_step_odd (n : N) (A B F0 F1 : Z) :
  (n mod 2 = 1)%N ->
  doubling_step n A B (F0, F1) =
  (F1 * F1 + F0 * F0, F0 * (Z.shiftl F1 1 - F0) + (F1 * F1 + F0 * F0)).
Proof.
  intros H. unfold doubling_step, parity_correction.
  rewrite H. reflexivity.
Qed.

Lemma half_index (n : N) :
  ((n mod 2 = 0)%N /\ N.to_nat n = (2 * N.to_nat (n / 2))%nat) \/
  ((n mod 2 = 1)%N /\ N.to_nat n = S (2 * N.to_nat (n / 2))).
Proof.
  pose proof (N.mod_upper_bound n 2 ltac:(discriminate)) as Hlt.
  assert (Hn : N.to_nat n = (2 * N.to_nat (n / 2) + N.to_nat (n mod 2))%nat).
  { rewrite (N.div_mod n 2) at 1 by discriminate.
    rewrite N2Nat.inj_add, N2Nat.inj_mul. reflexivity. }
  destruct (N.eq_dec (n mod 2) 0) as [E | E]; [left | right].
  - split; [exact E |]. rewrite E in Hn. change (N.to_nat 0) with O in Hn. lia.
  - assert (E1 : (n mod 2 = 1)%N)
      by (revert Hlt E; generalize (n mod 2)%N; intros; lia).
    split; [exact E1 |]. rewrite E1 in Hn. change (N.to_nat 1) with 1%nat in Hn. lia.
Qed.

Lemma doubling_step_fib (n : N) (A B : Z) :
  let k := N.to_nat (n / 2) in
  doubling_step n A B (fib k, fib (S k)) =
  (fib (N.to_nat n), fib (S (N.to_nat n))).
Proof.
  intros k. subst k.
  destruct (half_index n) as [[Hm Hn] | [Hm Hn]]; rewrite Hn.
  - rewrite (doubling_step_even _ _ _ _ _ Hm).
    rewrite fib_double, fib_double_S, Z.shiftl_mul_pow2 by lia.
    f_equal. ring.
  - rewrite (doubling_step_odd _ _ _ _ _ Hm).
    rewrite (fib_SS (2 * _)), fib_double, fib_double_S, Z.shiftl_mul_pow2 by lia.
    f_equal. ring.
Qed.

Lemma fast_fib_calc_fib (n : N) (A B : Z) :
  fast_fib_calc n A B = (fib (N.to_nat n), fib (S (N.to_nat n))).
Proof.
  revert A B. induction n as [n IH] using (well_founded_induction N.lt_wf_0).
  intros A B. destruct (N.eq_dec n 0) as [E | E].
  - subst n. reflexivity.
  - rewrite (fast_fib_calc_pos n A B E).
    rewrite (IH (n / 2)%N) by (apply N.div_lt; lia).
    apply doubling_step_fib.
Qed.

(** C1.  For every index [N], and whatever the output cells hold at the
    call, [fast_fib_calc N] leaves the pair (F(N), F(N+1)) of the linear
    recurrence in them; the base case gives (F(0), F(1)), and a doubling
    step turns the child's pair (F(k), F(k+1)), k = N/2, into
    (F(N), F(N+1)). *)
Theorem fast_fib_calc_correct (n : N) (A B : Z) :
  fast_fib_calc n A B = (fib (N.to_nat n), fib (S (N.to_nat n)))
  /\ fast_fib_calc 0 A B = (fib 0, fib 1)
  /\ doubling_step n A B (fib (N.to_nat (n / 2)), fib (S (N.to_nat (n / 2)))) =
     (fib (N.to_nat n), fib (S (N.to_nat n))).
Proof.
  split; [apply fast_fib_calc_fib |].
  split; [reflexivity | apply doubling_step_fib].
Qed.

(** C3.  In the recursive case, when the child call on k = N/2 has
    returned (F0, F1) = (F(k), F(k+1)): the first section leaves
    F0 * ((F1 << 1) - F0) = F(2k) in A, the second leaves
    F1*F1 + F0*F0 = F(2k+1) in B; for even N this candidate pair is the
    result; for odd N the correction is the swap followed by the
    addition, and the result is (B_candidate, A_candidate + B_candidate)
    = (F(N), F(N+1)). *)
Theorem doubling_step_spec (n : N) (A B F0 F1 : Z) :
  n <> 0%N ->
  fast_fib_calc (n / 2) 0 0 = (F0, F1) ->
  (F0, F1) = (fib (N.to_nat (n / 2)), fib (S (N.to_nat (n / 2)))) ->
  let k := N.to_nat (n / 2) in
  let fr := run (section_1 ++ section_2) (enter A B (F0, F1)) in
  rA (run section_1 (enter A B (F0, F1))) = F0 * (Z.shiftl F1 1 - F0)
  /\ rB (run section_2 (enter A B (F0, F1))) = F1 * F1 + F0 * F0
  /\ rA fr = F0 * (Z.shiftl F1 1 - F0) /\ rA fr = fib (2 * k)
  /\ rB fr = F1 * F1 + F0 * F0 /\ rB fr = fib (S (2 * k))
  /\ ((n mod 2 = 0)%N -> fast_fib_calc n A B = (rA fr, rB fr))
  /\ ((n mod 2 <> 0)%N ->
      parity_correction n fr =
        exec_op (mpz_add cB cB cA) (exec_op (mpz_swap cA cB) fr)
      /\ fast_fib_calc n A B = (rB fr, rA fr + rB fr)
      /\ (rB fr, rA fr + rB fr) = (fib (N.to_nat n), fib (S (N.to_nat n)))).
Proof.
  intros Hn Hchild Hinv k fr.
  pose proof (f_equal fst Hinv) as HF0. pose proof (f_equal snd Hinv) as HF1.
  cbn [fst snd] in HF0, HF1.
  assert (HA : rA fr = F0 * (Z.shiftl F1 1 - F0)) by reflexivity.
  assert (HB : rB fr = F1 * F1 + F0 * F0) by reflexivity.
  assert (Hres : fast_fib_calc n A B =
                 outputs (parity_correction n fr)).
  { rewrite (fast_fib_calc_pos n A B Hn), Hchild. reflexivity. }
  repeat split; try reflexivity.
  - rewrite HA, HF0, HF1. fold k. rewrite fib_double, Z.shiftl_mul_pow2 by lia.
    ring.
  - rewrite HB, HF0, HF1. fold k. rewrite fib_double_S. reflexivity.
  - intros Hm. rewrite Hres. unfold parity_correction. rewrite Hm. reflexivity.
  - unfold parity_correction.
    destruct (N.eqb_spec (n mod 2) 0) as [E | E]; [contradiction | reflexivity].
  - rewrite Hres. unfold parity_correction.
    destruct (N.eqb_spec (n mod 2) 0) as [E | E]; [contradiction | reflexivity].
  - rewrite <- (fast_fib_calc_fib n A B), Hres. unfold parity_correction.
    destruct (N.eqb_spec (n mod 2) 0) as [E | E]; [contradiction | reflexivity].
Qed.

Lemma doubling_step_spec_witness :
  rA (run (section_1 ++ section_2) (enter 9 9 (1, 2))) = fib (2 * 2)
  /\ rB (run (section_1 ++ section_2) (enter 9 9 (1, 2))) = fib (S (2 * 2))
  /\ fast_fib_calc 5 9 9 = (5, 8)
  /\ fast_fib_calc 4 9 9 = (3, 5).
Proof.
  assert (H5 : 5%N <> 0%N) by discriminate.
  assert (H4 : 4%N <> 0%N) by discriminate.
  assert (Hc : fast_fib_calc (5 / 2) 0 0 = (1, 2)) by (vm_compute; reflexivity).
  assert (Hi : (1, 2) = (fib (N.to_nat (5 / 2)), fib (S (N.to_nat (5 / 2)))))
    by (vm_compute; reflexivity).
  destruct (doubling_step_spec 5 9 9 1 2 H5 Hc Hi)
    as (_ & _ & _ & HA & _ & HB & _ & Hodd).
  destruct (doubling_step_spec 4 9 9 1 2 H4 Hc Hi)
    as (_ & _ & _ & _ & _ & _ & Heven & _).
  assert (Hm5 : (5 mod 2 <> 0)%N) by (vm_compute; discriminate).
  assert (Hm4 : (4 mod 2 = 0)%N) by (vm_compute; reflexivity).
  destruct (Hodd Hm5) as (_ & Hres & _).
  split; [exact HA |]. split; [exact HB |].
  split; [rewrite Hres | rewrite (Heven Hm4)]; vm_compute; reflexivity.
Defined.

(** C4.  The concrete values of the specification. *)
Theorem fast_fib_calc_examples (A B : Z) :
  fast_fib_calc 0 A B = (0, 1)
  /\ fast_fib_calc 1 A B = (1, 1)
  /\ fast_fib_calc 2 A B = (1, 2)
  /\ fast_fib_calc 10 A B = (55, 89)
  /\ fast_fib_calc 20 A B = (6765, 10946)
  /\ fst (fast_fib_calc 100 A B) = 354224848179261915075.
Proof. repeat split; vm_compute; reflexivity. Qed.

(** C5.  For every N >= 1 the second component at N is the first at N+1,
    and the second component at N+1 is the sum of the two at N. *)
Theorem fast_fib_calc_adjacent (n : N) (A B A' B' : Z) :
  (1 <= n)%N ->
  snd (fast_fib_calc n A B) = fst (fast_fib_calc (n + 1) A' B')
  /\ snd (fast_fib_calc (n + 1) A' B') =
     fst (fast_fib_calc n A B) + snd (fast_fib_calc n A B).
Proof.
  intros _. rewrite !fast_fib_calc_fib.
  replace (N.to_nat (n + 1)) with (S (N.to_nat n)) by lia.
  cbn [fst snd]. rewrite fib_SS. split; [reflexivity | ring].
Qed.

Lemma fast_fib_calc_adjacent_witness :
  snd (fast_fib_calc 7 0 0) = fst (fast_fib_calc (7 + 1) 0 0)
  /\ snd (fast_fib_calc (7 + 1) 0 0) =
     fst (fast_fib_calc 7 0 0) + snd (fast_fib_calc 7 0 0).
Proof. apply (fast_fib_calc_adjacent 7 0 0 0 0). vm_compute. discriminate. Defined.

Lemma fast_fib_calc_cells (n : N) (A B A' B' : Z) :
  fast_fib_calc n A B = fast_fib_calc n A' B'.
Proof.
  destruct (N.eq_dec n 0) as [E | E].
  - subst n. reflexivity.
  - rewrite (fast_fib_calc_pos n A B E), (fast_fib_calc_pos n A' B' E).
    destruct (fast_fib_calc (n / 2) 0 0) as [F0 F1].
    destruct (half_index n) as [[Hm _] | [Hm _]].
    + rewrite !(doubling_step_even _ _ _ _ _ Hm). reflexivity.
    + rewrite !(doubling_step_odd _ _ _ _ _ Hm). reflexivity.
Qed.

(** C10.  Both output cells are overwritten: the resulting pair does not
    depend on what they hold when the call is made. *)
Theorem fast_fib_calc_overwrites (n : N) (A B A' B' : Z) :
  fast_fib_calc n A B = fast_fib_calc n A' B'.
Proof. apply fast_fib_calc_cells. Qed.

(** ** The chain of calls *)

Lemma call_chain_zero : call_chain 0 = [0%N].
Proof. reflexivity. Qed.

Lemma call_chain_pos (n : N) :
  n <> 0%N -> call_chain n = n :: call_chain (n / 2).
Proof.
  intros Hn. rewrite call_chain_equation_1.
  destruct (N.eq_dec n 0) as [E | E]; [contradiction | reflexivity].
Qed.

Lemma depth_zero : depth 0 = 1%N.
Proof. reflexivity. Qed.

Lemma depth_pos (n : N) : n <> 0%N -> depth n = (N.log2 n + 2)%N.
Proof.
  intros Hn. unfold depth.
  rewrite N.log2_up_eqn by lia.
  replace (N.pred (n + 1)) with n by lia. lia.
Qed.

Lemma depth_half (n : N) : n <> 0%N -> depth n = (depth (n / 2) + 1)%N.
Proof.
  intros Hn. rewrite (depth_pos n Hn).
  destruct (N.eq_dec (n / 2) 0) as [E | E].
  - rewrite E, depth_zero.
    assert (n = 1%N).
    { pose proof (N.div_mod n 2 ltac:(discriminate)) as Hdm.
      pose proof (N.mod_upper_bound n 2 ltac:(discriminate)) as Hlt.
      rewrite E in Hdm. revert Hdm Hlt. generalize (n mod 2)%N. intros; lia. }
    subst n. reflexivity.
  - rewrite (depth_pos _ E).
    rewrite <- N.shiftr_div_pow2 with (n := 1%N).
    rewrite N.log2_shiftr.
    assert (1 <= N.log2 n)%N.
    { apply N.log2_le_pow2; [lia |].
      change (2 ^ 1)%N with 2%N.
      destruct (N.le_gt_cases 2 n) as [H | H]; [exact H |].
      exfalso. apply E. apply N.div_small. exact H. }
    lia.
Qed.

Lemma call_chain_length (n : N) :
  List.length (call_chain n) = N.to_nat (depth n).
Proof.
  induction n as [n IH] using (well_founded_induction N.lt_wf_0).
  destruct (N.eq_dec n 0) as [E | E].
  - subst n. reflexivity.
  - rewrite (call_chain_pos n E), (depth_half n E). cbn [List.length].
    rewrite (IH (n / 2)%N) by (apply N.div_lt; lia). lia.
Qed.

Lemma stack_enough (frames : nat) :
  forall (n : N) (A B : Z),
    (List.length (call_chain n) <= frames)%nat ->
    fast_fib_calc_stack frames n A B = Some (fast_fib_calc n A B).
Proof.
  induction frames as [| frames IH]; intros n A B Hlen.
  - destruct (N.eq_dec n 0) as [E | E].
    + subst n. rewrite call_chain_zero in Hlen. cbn in Hlen. lia.
    + rewrite (call_chain_pos n E) in Hlen. cbn in Hlen. lia.
  - cbn [fast_fib_calc_stack]. destruct (N.eqb_spec n 0) as [E | E].
    + subst n. reflexivity.
    + rewrite (call_chain_pos n E) in Hlen. cbn [List.length] in Hlen.
      rewrite IH by lia. rewrite (fast_fib_calc_pos n A B E). reflexivity.
Qed.

Lemma stack_short (frames : nat) :
  forall (n : N) (A B : Z),
    (frames < List.length (call_chain n))%nat ->
    fast_fib_calc_stack frames n A B = None.
Proof.
  induction frames as [| frames IH]; intros n A B Hlen; [reflexivity |].
  cbn [fast_fib_calc_stack]. destruct (N.eqb_spec n 0) as [E | E].
  - subst n. rewrite call_chain_zero in Hlen. cbn in Hlen. lia.
  - rewrite (call_chain_pos n E) in Hlen. cbn [List.length] in Hlen.
    rewrite IH by lia. reflexivity.
Qed.

(** C6, as the code has it.  [fast_fib_calc] returns for every index:
    each recursive call is on N/2, strictly below N when N > 0, and the
    chain of activations N, N/2, ..., 0 has ceil(log2(N+1)) + 1 members:
    a stack of that many frames gives the result, a smaller one does
    not. *)
Theorem fast_fib_calc_depth (n : N) (A B : Z) :
  (n <> 0%N -> (n / 2 < n)%N)
  /\ depth n = (N.log2_up (n + 1) + 1)%N
  /\ List.length (call_chain n) = N.to_nat (depth n)
  /\ fast_fib_calc_stack (N.to_nat (depth n)) n A B = Some (fast_fib_calc n A B)
  /\ (forall frames, (frames < N.to_nat (depth n))%nat ->
        fast_fib_calc_stack frames n A B = None).
Proof.
  split; [intros Hn; apply N.div_lt; lia |].
  split; [reflexivity |].
  split; [apply call_chain_length |].
  split.
  - apply stack_enough. rewrite call_chain_length. lia.
  - intros frames Hlt. apply stack_short. rewrite call_chain_length. exact Hlt.
Qed.

Lemma fast_fib_calc_depth_witness :
  (4 / 2 < 4)%N
  /\ fast_fib_calc_stack 4 4 0 0 = Some (fast_fib_calc 4 0 0)
  /\ fast_fib_calc_stack 3 4 0 0 = None.
Proof.
  destruct (fast_fib_calc_depth 4 0 0) as (Hhalf & _ & _ & Hsome & Hnone).
  split; [apply Hhalf; discriminate |].
  split; [exact Hsome |].
  apply Hnone. vm_compute. lia.
Defined.

(** C6 as stated fails at N = 4: the chain 4, 2, 1, 0 has four
    activations, one more than ceil(log2 4) + 1 = 3, and a stack of three
    frames does not suffice.  Counting the recursive calls instead of the
    activations does not help: at N = 3 there are two, not
    ceil(log2 3) + 1 = 3. *)
Lemma spec_depth_fails :
  spec_depth 4 = 3%N
  /\ call_chain 4 = [4; 2; 1; 0]%N
  /\ List.length (call_chain 4) <> N.to_nat (spec_depth 4)
  /\ fast_fib_calc_stack (N.to_nat (spec_depth 4)) 4 0 0 = None
  /\ fast_fib_calc_stack 4 4 0 0 = Some (3, 5)
  /\ spec_depth 3 = 3%N
  /\ call_chain 3 = [3; 1; 0]%N.
Proof.
  repeat split; try (vm_compute; reflexivity).
  vm_compute. discriminate.
Qed.

(** ** Non-interference of the two sections *)

Lemma cell_eqb_refl (c : cell) : cell_eqb c c = true.
Proof. destruct c; reflexivity. Qed.

Lemma mem_cell_app (c : cell) (l1 l2 : list cell) :
  mem_cell c (l1 ++ l2) = mem_cell c l1 || mem_cell c l2.
Proof. apply existsb_app. Qed.

Lemma disjoint_cells_out (l1 l2 : list cell) (c : cell) :
  disjoint_cells l1 l2 = true -> mem_cell c l1 = true -> mem_cell c l2 = false.
Proof.
  unfold disjoint_cells. intros Hd Hc.
  apply existsb_exists in Hc. destruct Hc as (x & Hx & Hcx).
  destruct (cell_eqb_spec c x) as [-> | ]; [| discriminate].
  rewrite forallb_forall in Hd. apply negb_true_iff, Hd, Hx.
Qed.

Lemma disjoint_cells_flip (l1 l2 : list cell) (c : cell) :
  disjoint_cells l1 l2 = true -> mem_cell c l2 = true -> mem_cell c l1 = false.
Proof.
  intros Hd Hc. destruct (mem_cell c l1) eqn:E; [| reflexivity].
  rewrite (disjoint_cells_out _ _ _ Hd E) in Hc. discriminate.
Qed.

(** An operation leaves the cells it does not write as they are. *)
Lemma exec_op_frame (o : mpz_op) (c : cell) (fr : frame) :
  mem_cell c (writes o) = false -> get c (exec_op o fr) = get c fr.
Proof.
  destruct o; simpl; repeat rewrite get_set;
    repeat match goal with
           | |- context [cell_eqb ?x ?y] => destruct (cell_eqb x y)
           end;
    simpl; intros H; try discriminate; reflexivity.
Qed.

(** What an operation writes is determined by the cells it reads. *)
Lemma exec_op_reads (o : mpz_op) (c : cell) (fr fr' : frame) :
  (forall x, mem_cell x (reads o) = true -> get x fr = get x fr') ->
  mem_cell c (writes o) = true ->
  get c (exec_op o fr) = get c (exec_op o fr').
Proof.
  intros Hr Hc.
  destruct o; simpl in *; rewrite ?orb_false_r in Hc; repeat rewrite get_set.
  - rewrite Hc. reflexivity.
  - rewrite Hc. rewrite (Hr op1) by (rewrite cell_eqb_refl; reflexivity).
    reflexivity.
  - rewrite Hc. rewrite (Hr op1), (Hr op2)
      by (rewrite cell_eqb_refl, ?orb_true_r; reflexivity).
    reflexivity.
  - rewrite Hc. rewrite (Hr op1), (Hr op2)
      by (rewrite cell_eqb_refl, ?orb_true_r; reflexivity).
    reflexivity.
  - rewrite Hc. rewrite (Hr op1), (Hr op2)
      by (rewrite cell_eqb_refl, ?orb_true_r; reflexivity).
    reflexivity.
  - rewrite (Hr c1), (Hr c2)
      by (rewrite cell_eqb_refl, ?orb_true_r; reflexivity).
    destruct (cell_eqb c c2); [reflexivity |].
    destruct (cell_eqb c c1); [reflexivity | discriminate].
Qed.

Lemma exec_op_comm (o1 o2 : mpz_op) (fr : frame) :
  indep o1 o2 = true ->
  exec_op o1 (exec_op o2 fr) = exec_op o2 (exec_op o1 fr).
Proof.
  unfold indep. intros H. apply andb_prop in H. destruct H as [H12 H21].
  apply frame_ext. intros c.
  destruct (mem_cell c (writes o1)) eqn:W1.
  - pose proof (disjoint_cells_out _ _ _ H12 W1) as Hn.
    rewrite mem_cell_app in Hn. apply orb_false_elim in Hn.
    destruct Hn as [_ W2].
    rewrite (exec_op_frame o2 c _ W2).
    apply exec_op_reads; [| exact W1].
    intros x Hx. apply exec_op_frame.
    apply (disjoint_cells_flip _ _ _ H21 Hx).
  - rewrite (exec_op_frame o1 c _ W1).
    destruct (mem_cell c (writes o2)) eqn:W2.
    + apply exec_op_reads; [| exact W2].
      intros x Hx. symmetry. apply exec_op_frame.
      apply (disjoint_cells_flip _ _ _ H12).
      rewrite mem_cell_app, Hx. reflexivity.
    + rewrite !(exec_op_frame o2 c _ W2). symmetry. apply exec_op_frame, W1.
Qed.

Lemma run_exec_comm (l : list mpz_op) (o : mpz_op) :
  forallb (fun o1 => indep o1 o) l = true ->
  forall fr, run l (exec_op o fr) = exec_op o (run l fr).
Proof.
  induction l as [| o1 l IH]; intros H fr; [reflexivity |].
  simpl in H. apply andb_prop in H. destruct H as [H1 Hl].
  rewrite !run_cons. rewrite (exec_op_comm o1 o fr H1). apply IH, Hl.
Qed.

Lemma forallb_indep_tail (l1 : list mpz_op) (o : mpz_op) (l2 : list mpz_op) :
  forallb (fun o1 => forallb (indep o1) (o :: l2)) l1 = true ->
  forallb (fun o1 => indep o1 o) l1 = true
  /\ forallb (fun o1 => forallb (indep o1) l2) l1 = true.
Proof.
  induction l1 as [| o1 l1 IH]; intros H; [split; reflexivity |].
  simpl in H. apply andb_prop in H. destruct H as [H1 Hl].
  apply andb_prop in H1. destruct H1 as [Ho Hl2].
  destruct (IH Hl) as [IHa IHb]. simpl. rewrite Ho, Hl2, IHa, IHb.
  split; reflexivity.
Qed.

(** Every interleaving of two streams that do not interfere ends in the
    frame that running the first and then the second ends in. *)
Lemma run_merge (sched : list bool) :
  forall (l1 l2 : list mpz_op) (fr : frame),
    forallb (fun o1 => forallb (indep o1) l2) l1 = true ->
    run (merge sched l1 l2) fr = run (l1 ++ l2) fr.
Proof.
  induction sched as [| b sched IH]; intros l1 l2 fr H; [reflexivity |].
  destruct b; simpl.
  - destruct l1 as [| o l1]; [reflexivity |].
    simpl in H. apply andb_prop in H. destruct H as [_ H].
    rewrite <- app_comm_cons, !run_cons. apply IH, H.
  - destruct l2 as [| o l2]; [rewrite app_nil_r; reflexivity |].
    destruct (forallb_indep_tail _ _ _ H) as [Ho Hl2].
    rewrite run_cons, (IH l1 l2 _ Hl2), !run_app, run_cons.
    rewrite (run_exec_comm l1 o Ho). reflexivity.
Qed.

Lemma sections_indep :
  forallb (fun o1 => forallb (indep o1) section_2) section_1 = true.
Proof. reflexivity. Qed.

Lemma omp_sections_run (cfg : omp_config) (n : N) (fr : frame) :
  run (omp_sections cfg n) fr = run (section_1 ++ section_2) fr.
Proof.
  unfold omp_sections. destruct (threshold cfg <=? n)%N.
  - apply run_merge, sections_indep.
  - destruct (first_section_first cfg n); [reflexivity |].
    change (section_2 ++ section_1)
      with (merge [false; false; false] section_1 section_2).
    apply run_merge, sections_indep.
Qed.

Lemma fast_fib_calc_omp_seq (cfg : omp_config) (n : N) :
  forall A B, fast_fib_calc_omp cfg n A B = fast_fib_calc n A B.
Proof.
  induction n as [n IH] using (well_founded_induction N.lt_wf_0).
  intros A B. destruct (N.eq_dec n 0) as [E | E].
  - subst n. reflexivity.
  - rewrite (fast_fib_calc_omp_pos cfg n A B E), (fast_fib_calc_pos n A B E).
    rewrite (IH (n / 2)%N) by (apply N.div_lt; lia).
    unfold doubling_step_omp, doubling_step.
    rewrite omp_sections_run. reflexivity.
Qed.

(** The program as built: the split happens from [omp_threshold] on. *)
Corollary fast_fib_calc_omp_built (schedule : N -> list bool)
    (first : N -> bool) (n : N) (A B : Z) :
  fast_fib_calc_omp
    {| threshold := omp_threshold; schedule := schedule;
       first_section_first := first |} n A B
  = fast_fib_calc n A B.
Proof. apply fast_fib_calc_omp_seq. Qed.

(** C2.  The result does not depend on the concurrency configuration:
    whatever the threshold of the split, the interleaving of the two
    sections at the levels that are split and their order at the levels
    that are not, and whatever the output cells hold, two runs on the
    same index end with the same pair, which is the pair of the
    sequential program; in particular a second call on the cells the
    first one filled gives the same pair again. *)
Theorem fast_fib_calc_deterministic (cfg1 cfg2 : omp_config) (n : N)
    (A B A' B' : Z) :
  fast_fib_calc_omp cfg1 n A B = fast_fib_calc_omp cfg2 n A' B'
  /\ fast_fib_calc_omp cfg1 n A B = fast_fib_calc n A B
  /\ (forall fr sched,
        run (merge sched section_1 section_2) fr = run (section_1 ++ section_2) fr)
  /\ (forall fr, run (section_2 ++ section_1) fr = run (section_1 ++ section_2) fr)
  /\ fast_fib_calc_omp cfg2 n (fst (fast_fib_calc_omp cfg1 n A B))
       (snd (fast_fib_calc_omp cfg1 n A B)) = fast_fib_calc_omp cfg1 n A B.
Proof.
  split; [rewrite !fast_fib_calc_omp_seq; apply fast_fib_calc_cells |].
  split; [apply fast_fib_calc_omp_seq |].
  split; [intros fr sched; apply run_merge, sections_indep |].
  split.
  - intros fr.
    change (section_2 ++ section_1)
      with (merge [false; false; false] section_1 section_2).
    apply run_merge, sections_indep.
  - rewrite !fast_fib_calc_omp_seq. apply fast_fib_calc_cells.
Qed.

(** ** Strings *)

Lemma length_take (n : nat) :
  forall s, (n <= String.length s)%nat -> String.length (take n s) = n.
Proof.
  unfold take. induction n as [| n IH]; intros s H.
  - destruct s; reflexivity.
  - destruct s as [| c s]; cbn [String.length] in H; [lia |].
    cbn [substring String.length]. rewrite IH by lia. reflexivity.
Qed.

Lemma length_drop (n : nat) :
  forall s, String.length (drop n s) = (String.length s - n)%nat.
Proof.
  induction n as [| n IH]; intros s.
  - cbn [drop]. lia.
  - destruct s as [| c s]; [reflexivity |]. cbn [drop String.length]. apply IH.
Qed.

Lemma take_drop (n : nat) :
  forall s, (take n s ++ drop n s)%string = s.
Proof.
  unfold take. induction n as [| n IH]; intros s.
  - destruct s; reflexivity.
  - destruct s as [| c s]; [reflexivity |].
    cbn [substring drop append]. rewrite IH. reflexivity.
Qed.

Lemma drop_drop (a b : nat) :
  forall s, drop a (drop b s) = drop (b + a) s.
Proof.
  induction b as [| b IH]; intros s; [reflexivity |].
  destruct s as [| c s]; [destruct a; reflexivity |].
  cbn [drop plus]. apply IH.
Qed.

Lemma first_last_split (s : string) (m : nat) :
  (50 <= m)%nat ->
  exists mid, s = (take 50 s ++ mid ++ drop m s)%string.
Proof.
  intros Hm. exists (take (m - 50) (drop 50 s)).
  replace (drop m s) with (drop (m - 50) (drop 50 s))
    by (rewrite drop_drop; f_equal; lia).
  rewrite take_drop, take_drop. reflexivity.
Qed.

(** ** The command line *)

Lemma main_proceed (size : Z -> N) (fopen_ok : string -> bool) (io_slow : bool)
    (argv : list string) (TARGET : N) (SAVE : bool) :
  parse_args (tl argv) 20000000 false = Proceed TARGET SAVE ->
  main size fopen_ok io_slow argv =
  (compute_and_report size fopen_ok io_slow TARGET SAVE, 0).
Proof. intros H. unfold main. rewrite H. reflexivity. Qed.

(** An argument that is no flag and that [strtoul] does not read to its
    end as a value above zero ends the program with the error line, the
    usage text and status 1, before anything is computed or opened. *)
Lemma main_invalid (size : Z -> N) (fopen_ok : string -> bool) (io_slow : bool)
    (prog arg : string) :
  String.eqb arg "-s" = false ->
  String.eqb arg "-h" = false ->
  String.eqb (snd (strtoul arg)) "" && (0 <? fst (strtoul arg))%N = false ->
  let r := main size fopen_ok io_slow [prog; arg] in
  r = (Stdout ("Error: Invalid argument '" ++ arg ++ "'" ++ nl ++ nl)%string
         :: print_usage prog, 1)
  /\ existsb is_compute (fst r) = false
  /\ existsb is_file_event (fst r) = false.
Proof.
  intros Hs Hh Hv r. subst r. unfold main. cbn [hd tl parse_args].
  rewrite Hs, Hh. destruct (strtoul arg) as [v rest]. cbn [fst snd] in Hv.
  rewrite Hv. repeat split.
Qed.

Lemma main_rejects_abc_and_0 (size : Z -> N) (fopen_ok : string -> bool)
    (io_slow : bool) (prog : string) :
  snd (main size fopen_ok io_slow [prog; "abc"%string]) = 1
  /\ snd (main size fopen_ok io_slow [prog; "0"%string]) = 1
  /\ snd (main size fopen_ok io_slow [prog; "12abc"%string]) = 1
  /\ snd (main size fopen_ok io_slow [prog; "-0"%string]) = 1.
Proof. repeat split. Qed.

(** C7 at the argument "-3".  [strtoul] reads the whole text and negates
    3 in the unsigned type, so the test of line 234 passes: the program
    prints no usage text, sets out to compute F(2^64 - 3) and leaves
    [RETURN_FLAG] at 0. *)
Theorem main_minus_3 (size : Z -> N) (fopen_ok : string -> bool)
    (io_slow : bool) :
  strtoul "-3" = (18446744073709551613%N, EmptyString)
  /\ parse_args ["-3"%string] 20000000 false =
     Proceed 18446744073709551613 false
  /\ exists rest,
       main size fopen_ok io_slow ["fib"; "-3"]%string =
       (Stdout ("Computing F(18446744073709551613)..." ++ nl ++ nl)%string
          :: Compute 18446744073709551613 :: rest, 0).
Proof.
  assert (Hp : parse_args ["-3"%string] 20000000 false =
               Proceed 18446744073709551613 false)
    by (vm_compute; reflexivity).
  split; [vm_compute; reflexivity |]. split; [exact Hp |].
  eexists.
  rewrite (main_proceed size fopen_ok io_slow ["fib"; "-3"]%string _ _ Hp).
  unfold compute_and_report. cbn [app]. f_equal.
Qed.

(** ** Printing the result *)

Lemma print_fib_info_divmod (size : Z -> N) (fopen_ok : string -> bool)
    (A : Z) (n : N) :
  (1000000 < size A)%N ->
  print_fib_info size fopen_ok A n false =
  digits_line n (size A) :: show_divmod A (size A).
Proof.
  intros H. unfold print_fib_info.
  apply N.ltb_lt in H. rewrite H. reflexivity.
Qed.

Lemma print_fib_info_string (size : Z -> N) (fopen_ok : string -> bool)
    (A : Z) (n : N) (SAVE : bool) :
  SAVE = true \/ (size A <= 1000000)%N ->
  print_fib_info size fopen_ok A n SAVE =
  digits_line n (size A)
    :: (if SAVE then save_block fopen_ok n (mpz_get_str A) else [])
       ++ show_string (mpz_get_str A) (size A).
Proof.
  intros H. unfold print_fib_info. destruct SAVE.
  - rewrite andb_false_r. reflexivity.
  - destruct H as [H | H]; [discriminate |].
    assert (Hlt : (1000000 <? size A)%N = false) by (apply N.ltb_ge; exact H).
    apply N.leb_le in H. rewrite Hlt, H, orb_true_r. reflexivity.
Qed.

(** C8 as stated fails at F(481), which has 101 digits, when it is not
    saved: the pieces are cut from the decimal string, and division and
    modulo would give other lines (the last 50 digits start with 0). *)
Lemma print_fib_info_unsaved_481 :
  let A := fst (fast_fib_calc 481 0 0) in
  ndigits A = 101%N
  /\ print_fib_info ndigits (fun _ => true) A 481 false =
     [ Stdout ("F(481) has 101 digits" ++ nl);
       Stdout ("First 50 digits: 14913169640232740127827512057302148063648650711209" ++ nl);
       Stdout ("Last 50 digits:  01966150219926546779697987984279570098768737999681" ++ nl)
     ]%string
  /\ show_divmod A (ndigits A) =
     [ Stdout ("First ~50 digits: 14913169640232740127827512057302148063648650711209" ++ nl);
       Stdout ("Last 50 digits:    1966150219926546779697987984279570098768737999681" ++ nl)
     ]%string
  /\ print_fib_info ndigits (fun _ => true) A 481 false <>
     digits_line 481 (ndigits A) :: show_divmod A (ndigits A).
Proof.
  repeat split; try (vm_compute; reflexivity).
  vm_compute. discriminate.
Qed.

(** Both an exact count and one that is always 1 too big meet what GMP
    documents of [mpz_sizeinbase]. *)
Remark sizeinbase_contract_exact : sizeinbase_contract ndigits.
Proof. intros a. left. reflexivity. Qed.

Remark sizeinbase_contract_over :
  sizeinbase_contract (fun a => (ndigits a + 1)%N).
Proof. intros a. right. reflexivity. Qed.

(** With a count that is 1 too big the offset of line 179 is 1 too far:
    for F(481) the line of the last 50 digits carries 49. *)
Remark print_fib_info_count_too_big :
  print_fib_info (fun a => (ndigits a + 1)%N) (fun _ => true)
    (fst (fast_fib_calc 481 0 0)) 481 false =
  [ Stdout ("F(481) has 102 digits" ++ nl);
    Stdout ("First 50 digits: 14913169640232740127827512057302148063648650711209" ++ nl);
    Stdout ("Last 50 digits:  1966150219926546779697987984279570098768737999681" ++ nl)
  ]%string.
Proof. vm_compute. reflexivity. Qed.

(** ** Saving *)

Lemma save_block_failed (fopen_ok : string -> bool) (n : N) (str : string) :
  fopen_ok (FILENAME n) = false ->
  save_block fopen_ok n str =
  [ Stdout ("Writing to file " ++ FILENAME n ++ "... ")%string;
    Fopen (FILENAME n) false;
    Stdout ("failed." ++ nl)%string;
    Stdout ("Couldn't create file " ++ FILENAME n ++ nl)%string ].
Proof. intros H. unfold save_block. rewrite H. reflexivity. Qed.

Lemma show_string_no_file (str : string) (nd : N) :
  existsb is_fwrite (show_string str nd) = false.
Proof. unfold show_string. destruct (100 <? nd)%N; reflexivity. Qed.

(** C9.  When the result is to be saved and [fopen] fails, the failure
    is reported on standard output, nothing is written, the digit count
    and the value (whole, or its first and last 50 digits) are printed
    all the same, and [main] goes on to its summary and returns 0. *)
Theorem save_failure_nonfatal (size : Z -> N) (fopen_ok : string -> bool)
    (io_slow : bool) (A : Z) (n : N) :
  fopen_ok (FILENAME n) = false ->
  let str := mpz_get_str A in
  let tr := print_fib_info size fopen_ok A n true in
  tr = digits_line n (size A)
       :: [ Stdout ("Writing to file " ++ FILENAME n ++ "... ")%string;
            Fopen (FILENAME n) false;
            Stdout ("failed." ++ nl)%string;
            Stdout ("Couldn't create file " ++ FILENAME n ++ nl)%string ]
       ++ (if (100 <? size A)%N
           then [ Stdout ("First 50 digits: " ++ take 50 str ++ nl)%string;
                  Stdout ("Last 50 digits:  "
                          ++ drop (N.to_nat (size A - 50)) str ++ nl)%string ]
           else [ Stdout ("Full number: " ++ str ++ nl)%string ])
  /\ existsb is_fwrite tr = false
  /\ (forall argv,
        parse_args (tl argv) 20000000 false = Proceed n true ->
        A = fst (fast_fib_calc n 0 0) ->
        snd (main size fopen_ok io_slow argv) = 0
        /\ snd (main size fopen_ok io_slow argv) =
           snd (main size (fun _ => true) io_slow argv)
        /\ exists before after,
             fst (main size fopen_ok io_slow argv) =
             before ++ tr
               ++ Stdout (nl ++ "Performance summary:" ++ nl)%string :: after).
Proof.
  intros Hfail str tr.
  assert (Htr : tr = digits_line n (size A)
                     :: save_block fopen_ok n str ++ show_string str (size A)).
  { subst tr. rewrite print_fib_info_string by (left; reflexivity). reflexivity. }
  split.
  { rewrite Htr, (save_block_failed _ _ _ Hfail). unfold show_string.
    destruct (100 <? size A)%N; reflexivity. }
  split.
  { rewrite Htr, (save_block_failed _ _ _ Hfail).
    cbn [existsb app is_fwrite digits_line orb].
    apply show_string_no_file. }
  intros argv Hparse HA.
  rewrite !(main_proceed _ _ _ _ _ _ Hparse). cbn [fst snd].
  split; [reflexivity |]. split; [reflexivity |].
  unfold compute_and_report. rewrite <- HA. fold tr.
  eexists
    [ Stdout ("Computing F(" ++ dec_N n ++ ")..." ++ nl ++ nl)%string;
      Stdout ("Result will be saved to file." ++ nl)%string;
      Compute n;
      Stdout_time "Computation completed in %.6f seconds\n" ].
  eexists. cbn [app]. reflexivity.
Qed.

Lemma save_failure_nonfatal_witness :
  print_fib_info ndigits (fun _ => false) 55 10 true =
    [ Stdout ("F(10) has 2 digits" ++ nl);
      Stdout "Writing to file Fibonacci_10.txt... ";
      Fopen "Fibonacci_10.txt" false;
      Stdout ("failed." ++ nl);
      Stdout ("Couldn't create file Fibonacci_10.txt" ++ nl);
      Stdout ("Full number: 55" ++ nl) ]%string
  /\ snd (main ndigits (fun _ => false) false ["fib"; "-s"; "10"]%string) = 0.
Proof.
  assert (Hfail : (fun _ : string => false) (FILENAME 10) = false) by reflexivity.
  destruct (save_failure_nonfatal ndigits (fun _ => false) false 55 10 Hfail)
    as (Htr & _ & Hmain).
  split.
  - rewrite Htr. vm_compute. reflexivity.
  - assert (Hp : parse_args (tl ["fib"; "-s"; "10"]%string) 20000000 false
                 = Proceed 10 true) by (vm_compute; reflexivity).
    assert (HA : 55 = fst (fast_fib_calc 10 0 0)) by (vm_compute; reflexivity).
    destruct (Hmain _ Hp HA) as (Hexit & _). exact Hexit.
Defined.

(** * Further properties *)

(** ** Decimal numerals *)

Lemma uint_val_acc (d : Decimal.uint) :
  forall acc,
    uint_val d acc = acc * 10 ^ Z.of_nat (Decimal.nb_digits d) + uint_val d 0.
Proof.
  induction d; intros acc; cbn [uint_val Decimal.nb_digits];
    try (rewrite Z.pow_0_r; lia);
    rewrite IHd, (IHd (0 * 10 + _)), Nat2Z.inj_succ, Z.pow_succ_r by lia; lia.
Qed.

Lemma uint_val_range (d : Decimal.uint) :
  0 <= uint_val d 0 < 10 ^ Z.of_nat (Decimal.nb_digits d).
Proof.
  induction d; cbn [uint_val Decimal.nb_digits];
    try (rewrite Z.pow_0_r; lia);
    rewrite uint_val_acc, Nat2Z.inj_succ, Z.pow_succ_r by lia; lia.
Qed.

Lemma of_uint_acc_val (d : Decimal.uint) :
  forall p, Z.pos (Pos.of_uint_acc d p) = uint_val d (Z.pos p).
Proof.
  induction d; intros p; cbn [Pos.of_uint_acc uint_val];
    try reflexivity; rewrite IHd; f_equal; lia.
Qed.

Lemma of_uint_val (d : Decimal.uint) : Z.of_N (N.of_uint d) = uint_val d 0.
Proof.
  unfold N.of_uint.
  induction d; cbn [Pos.of_uint uint_val Z.of_N];
    try reflexivity; try exact IHd; apply of_uint_acc_val.
Qed.

Lemma to_uint_val (n : N) : uint_val (N.to_uint n) 0 = Z.of_N n.
Proof. rewrite <- of_uint_val, DecimalN.Unsigned.of_to. reflexivity. Qed.

Lemma length_string_of_uint (d : Decimal.uint) :
  String.length (NilEmpty.string_of_uint d) = Decimal.nb_digits d.
Proof.
  induction d; cbn [NilEmpty.string_of_uint String.length Decimal.nb_digits];
    congruence.
Qed.

Lemma to_uint_nonnil (n : N) : N.to_uint n <> Decimal.Nil.
Proof.
  destruct n as [| p]; [discriminate | apply DecimalPos.Unsigned.to_uint_nonnil].
Qed.

Lemma dec_N_numeral (n : N) : dec_N n = NilEmpty.string_of_uint (N.to_uint n).
Proof.
  unfold dec_N, NilZero.string_of_uint.
  pose proof (to_uint_nonnil n) as H.
  destruct (N.to_uint n); [contradiction | reflexivity ..].
Qed.

Lemma read_digits_stops (rest : string) (acc : Z) (any : bool) :
  stops rest -> read_digits rest acc any = (acc, any, rest).
Proof.
  destruct rest as [| c r]; [reflexivity |]. cbn [stops read_digits].
  intros H. rewrite H. reflexivity.
Qed.

Lemma read_digits_numeral (d : Decimal.uint) (rest : string) :
  stops rest ->
  forall acc,
    read_digits (NilEmpty.string_of_uint d ++ rest) acc true =
    (uint_val d acc, true, rest).
Proof.
  intros Hrest.
  induction d; intros acc;
    cbn [NilEmpty.string_of_uint append uint_val];
    [apply read_digits_stops, Hrest | ..];
    (cbn [read_digits]; match goal with
     | |- context [digit_val ?c] =>
         change (digit_val c) with (Some (Z.of_N (N_of_ascii c) - 48))
     end; cbn [N_of_ascii N_of_digits Z.of_N]; apply IHd).
Qed.

Lemma read_digits_dec_N (n : N) (rest : string) :
  stops rest ->
  read_digits (dec_N n ++ rest) 0 false = (Z.of_N n, true, rest).
Proof.
  intros Hrest. rewrite dec_N_numeral, <- to_uint_val.
  pose proof (to_uint_nonnil n) as Hnn.
  destruct (N.to_uint n) as [| d | d | d | d | d | d | d | d | d | d];
    [contradiction | ..];
    cbn [NilEmpty.string_of_uint append read_digits uint_val];
    match goal with
    | |- context [digit_val ?c] =>
        change (digit_val c) with (Some (Z.of_N (N_of_ascii c) - 48))
    end; cbn [N_of_ascii N_of_digits Z.of_N];
    apply (read_digits_numeral d rest Hrest).
Qed.

(** The first character of a decimal numeral is a digit: no white
    space, no sign. *)
Lemma dec_N_head (n : N) :
  exists c r, dec_N n = String c r
              /\ isspace c = false /\ c <> "-"%char /\ c <> "+"%char
              /\ digit_val c <> None.
Proof.
  rewrite dec_N_numeral. pose proof (to_uint_nonnil n) as Hnn.
  destruct (N.to_uint n); [contradiction | ..];
    cbn [NilEmpty.string_of_uint]; do 2 eexists;
    (split; [reflexivity | split; [reflexivity | repeat split; discriminate]]).
Qed.

Lemma strtoul_plain (c : ascii) (r : string) :
  isspace c = false -> c <> "-"%char -> c <> "+"%char ->
  strtoul (String c r) =
  let '(v, any, rest) := read_digits (String c r) 0 false in
  if negb any then (0%N, String c r)
  else if ULONG_MAX <? v then (Z.to_N ULONG_MAX, rest)
  else (Z.to_N v, rest).
Proof.
  intros Hsp Hm Hp. unfold strtoul. cbn [skip_space]. rewrite Hsp.
  destruct c as [[|] [|] [|] [|] [|] [|] [|] [|]];
    try reflexivity; contradiction.
Qed.

Lemma strtoul_minus (c : ascii) (r : string) :
  isspace c = false ->
  strtoul (String "-" (String c r)) =
  let '(v, any, rest) := read_digits (String c r) 0 false in
  if negb any then (0%N, String "-" (String c r))
  else if ULONG_MAX <? v then (Z.to_N ULONG_MAX, rest)
  else (Z.to_N ((- v) mod (ULONG_MAX + 1)), rest).
Proof. reflexivity. Qed.

Lemma strtoul_plus (c : ascii) (r : string) :
  strtoul (String "+" (String c r)) =
  let '(v, any, rest) := read_digits (String c r) 0 false in
  if negb any then (0%N, String "+" (String c r))
  else if ULONG_MAX <? v then (Z.to_N ULONG_MAX, rest)
  else (Z.to_N v, rest).
Proof. reflexivity. Qed.

Lemma strtoul_dec_N (n : N) (rest : string) :
  stops rest ->
  strtoul (dec_N n ++ rest) =
  (if ULONG_MAX <? Z.of_N n then Z.to_N ULONG_MAX else n, rest).
Proof.
  intros Hrest. destruct (dec_N_head n) as (c & r & E & Hsp & Hm & Hp & _).
  pose proof (read_digits_dec_N n rest Hrest) as Hrd.
  rewrite E in *. cbn [append] in *.
  rewrite (strtoul_plain c _ Hsp Hm Hp), Hrd. cbn [negb].
  destruct (ULONG_MAX <? Z.of_N n); [reflexivity |].
  rewrite N2Z.id. reflexivity.
Qed.

Lemma strtoul_minus_dec_N (n : N) (rest : string) :
  stops rest ->
  strtoul (String "-" (dec_N n ++ rest)) =
  (if ULONG_MAX <? Z.of_N n then Z.to_N ULONG_MAX
   else Z.to_N ((- Z.of_N n) mod (ULONG_MAX + 1)), rest).
Proof.
  intros Hrest. destruct (dec_N_head n) as (c & r & E & Hsp & Hm & Hp & _).
  pose proof (read_digits_dec_N n rest Hrest) as Hrd.
  rewrite E in *. cbn [append] in *.
  rewrite (strtoul_minus c _ Hsp), Hrd. cbn [negb].
  destruct (ULONG_MAX <? Z.of_N n); reflexivity.
Qed.

Lemma strtoul_plus_dec_N (n : N) (rest : string) :
  stops rest ->
  strtoul (String "+" (dec_N n ++ rest)) =
  (if ULONG_MAX <? Z.of_N n then Z.to_N ULONG_MAX else n, rest).
Proof.
  intros Hrest. destruct (dec_N_head n) as (c & r & E & Hsp & Hm & Hp & _).
  pose proof (read_digits_dec_N n rest Hrest) as Hrd.
  rewrite E in *. cbn [append] in *.
  rewrite (strtoul_plus c _), Hrd. cbn [negb].
  destruct (ULONG_MAX <? Z.of_N n); [reflexivity |].
  rewrite N2Z.id. reflexivity.
Qed.

Lemma strtoul_space_dec_N (c : ascii) (n : N) (rest : string) :
  isspace c = true -> stops rest ->
  strtoul (String c (dec_N n ++ rest)) = strtoul (dec_N n ++ rest).
Proof.
  intros Hc Hrest.
  destruct (dec_N_head n) as (c0 & r & E & Hsp & Hm & Hp & _).
  pose proof (read_digits_dec_N n rest Hrest) as Hrd.
  rewrite E in *. cbn [append] in *.
  rewrite (strtoul_plain c0 _ Hsp Hm Hp), Hrd.
  unfold strtoul. cbn [skip_space]. rewrite Hc, Hsp.
  destruct c0 as [[|] [|] [|] [|] [|] [|] [|] [|]];
    try contradiction; rewrite Hrd; reflexivity.
Qed.

(** ** The argument loop *)

Lemma flag_s_accepted : accepted "-s" = true.
Proof. reflexivity. Qed.

Lemma flag_h_not_accepted : accepted "-h" = false.
Proof. reflexivity. Qed.

Lemma parse_args_accepted (arg : string) (args : list string) (T : N) (S : bool) :
  accepted arg = true ->
  parse_args (arg :: args) T S =
  parse_args args (next_target T arg) (S || String.eqb arg "-s").
Proof.
  unfold accepted, next_target, is_index. intros H. cbn [parse_args].
  destruct (String.eqb arg "-s"); [rewrite orb_true_r; reflexivity |].
  rewrite orb_false_r. cbn [orb] in H.
  apply andb_prop in H. destruct H as [Hh Hi].
  apply negb_true_iff in Hh. rewrite Hh.
  destruct (strtoul arg) as [v rest]. cbn [fst snd] in *. rewrite Hi.
  reflexivity.
Qed.

Lemma parse_args_help (args : list string) (T : N) (S : bool) :
  parse_args ("-h"%string :: args) T S = Help.
Proof. reflexivity. Qed.

Lemma parse_args_invalid (arg : string) (args : list string) (T : N) (S : bool) :
  accepted arg = false -> arg <> "-h"%string ->
  parse_args (arg :: args) T S = Invalid arg.
Proof.
  unfold accepted, is_index. intros H Hh. cbn [parse_args].
  apply orb_false_elim in H. destruct H as [Hs Hi]. rewrite Hs.
  apply String.eqb_neq in Hh. rewrite Hh in *. cbn [negb andb] in Hi.
  destruct (strtoul arg) as [v rest]. cbn [fst snd] in *. rewrite Hi.
  reflexivity.
Qed.

Lemma parse_args_prefix (pre : list string) :
  forall (rest : list string) (T : N) (S : bool),
    forallb accepted pre = true ->
    parse_args (pre ++ rest) T S =
    parse_args rest (fold_left next_target pre T)
      (S || existsb (fun a => String.eqb a "-s") pre).
Proof.
  induction pre as [| a pre IH]; intros rest T S H.
  - cbn [app fold_left existsb]. rewrite orb_false_r. reflexivity.
  - cbn [forallb] in H. apply andb_prop in H. destruct H as [Ha Hpre].
    cbn [app]. rewrite (parse_args_accepted a _ T S Ha), (IH _ _ _ Hpre).
    cbn [fold_left existsb]. rewrite orb_assoc. reflexivity.
Qed.

Lemma dec_N_not_flag (n : N) (rest pre : string) :
  (pre = EmptyString \/ pre = "-"%string \/ pre = "+"%string) ->
  String.eqb (pre ++ dec_N n ++ rest) "-s" = false
  /\ String.eqb (pre ++ dec_N n ++ rest) "-h" = false.
Proof.
  intros Hpre. destruct (dec_N_head n) as (c & r & E & _ & Hm & _ & Hd).
  rewrite E. cbn [append].
  destruct Hpre as [-> | [-> | ->]]; cbn [append String.eqb];
    split; try reflexivity.
  - destruct (Ascii.eqb_spec c "-"); [contradiction | reflexivity].
  - destruct (Ascii.eqb_spec c "-"); [contradiction | reflexivity].
  - cbn [Ascii.eqb Bool.eqb]. cbv iota.
    destruct (Ascii.eqb_spec c "s") as [-> | ]; [| reflexivity].
    exfalso. apply Hd. reflexivity.
  - cbn [Ascii.eqb Bool.eqb]. cbv iota.
    destruct (Ascii.eqb_spec c "h") as [-> | ]; [| reflexivity].
    exfalso. apply Hd. reflexivity.
Qed.

Lemma append_empty (s : string) : (s ++ "")%string = s.
Proof.
  induction s as [| c s IH]; [reflexivity |]. cbn [append]. rewrite IH.
  reflexivity.
Qed.

Lemma in_range_not_over (n : N) : Z.of_N n <= ULONG_MAX -> (ULONG_MAX <? Z.of_N n) = false.
Proof. intros H. apply Z.ltb_ge. exact H. Qed.

(** A positive index within [unsigned long], written in decimal, alone
    or after a plus sign or a white-space character, is read back as
    itself: the program sets out to compute exactly that Fibonacci
    number, without saving. *)
Theorem main_reads_decimal_index (size : Z -> N) (fopen_ok : string -> bool)
    (io_slow : bool) (prog : string) (n : N) (sp : ascii) :
  (0 < n)%N -> Z.of_N n <= ULONG_MAX -> isspace sp = true ->
  main size fopen_ok io_slow [prog; dec_N n] =
    (compute_and_report size fopen_ok io_slow n false, 0)
  /\ main size fopen_ok io_slow [prog; String "+" (dec_N n)] =
    (compute_and_report size fopen_ok io_slow n false, 0)
  /\ main size fopen_ok io_slow [prog; String sp (dec_N n)] =
    (compute_and_report size fopen_ok io_slow n false, 0).
Proof.
  intros Hpos Hmax Hsp.
  pose proof (in_range_not_over n Hmax) as Hlt.
  assert (Hn : (0 <? n)%N = true) by (apply N.ltb_lt; exact Hpos).
  pose proof (strtoul_dec_N n EmptyString I) as E1.
  pose proof (strtoul_plus_dec_N n EmptyString I) as E2.
  pose proof (strtoul_space_dec_N sp n EmptyString Hsp I) as E3.
  rewrite E1 in E3. rewrite Hlt in E1, E2, E3.
  destruct (dec_N_not_flag n EmptyString EmptyString (or_introl eq_refl))
    as [Hs1 Hh1].
  destruct (dec_N_not_flag n EmptyString "+"
              (or_intror (or_intror eq_refl))) as [Hs2 Hh2].
  cbn [append] in *.
  rewrite append_empty in *.
  split; [| split]; apply main_proceed; cbn [tl parse_args].
  - rewrite Hs1, Hh1, E1. cbn [String.eqb andb]. rewrite Hn. reflexivity.
  - rewrite Hs2, Hh2, E2. cbn [String.eqb andb]. rewrite Hn. reflexivity.
  - assert (Hs3 : String.eqb (String sp (dec_N n)) "-s" = false).
    { cbn [String.eqb]. destruct (Ascii.eqb_spec sp "-") as [-> | ];
        [discriminate Hsp | reflexivity]. }
    assert (Hh3 : String.eqb (String sp (dec_N n)) "-h" = false).
    { cbn [String.eqb]. destruct (Ascii.eqb_spec sp "-") as [-> | ];
        [discriminate Hsp | reflexivity]. }
    rewrite Hs3, Hh3, E3. cbn [String.eqb andb]. rewrite Hn. reflexivity.
Qed.

Lemma main_reads_decimal_index_witness :
  main ndigits (fun _ => true) false ["fib"; "30"]%string =
    (compute_and_report ndigits (fun _ => true) false 30 false, 0)
  /\ main ndigits (fun _ => true) false ["fib"; "+30"]%string =
    (compute_and_report ndigits (fun _ => true) false 30 false, 0)
  /\ main ndigits (fun _ => true) false ["fib"; " 30"]%string =
    (compute_and_report ndigits (fun _ => true) false 30 false, 0).
Proof.
  apply (main_reads_decimal_index ndigits (fun _ => true) false "fib" 30 " ").
  - reflexivity.
  - vm_compute. discriminate.
  - reflexivity.
Defined.

(** An index above [ULONG_MAX] is not refused: [strtoul] gives
    [ULONG_MAX], and that is the index the program takes. *)
Theorem main_clamps_large_index (size : Z -> N) (fopen_ok : string -> bool)
    (io_slow : bool) (prog : string) (n : N) :
  ULONG_MAX < Z.of_N n ->
  main size fopen_ok io_slow [prog; dec_N n] =
  (compute_and_report size fopen_ok io_slow 18446744073709551615 false, 0).
Proof.
  intros Hover. apply Z.ltb_lt in Hover.
  pose proof (strtoul_dec_N n EmptyString I) as E1. rewrite Hover in E1.
  destruct (dec_N_not_flag n EmptyString EmptyString (or_introl eq_refl))
    as [Hs1 Hh1].
  cbn [append] in *. rewrite append_empty in *.
  apply main_proceed. cbn [tl parse_args]. rewrite Hs1, Hh1, E1. reflexivity.
Qed.

Lemma main_clamps_large_index_witness :
  main ndigits (fun _ => true) false ["fib"; "18446744073709551616"]%string =
  (compute_and_report ndigits (fun _ => true) false 18446744073709551615 false, 0).
Proof.
  apply (main_clamps_large_index ndigits (fun _ => true) false "fib"
           18446744073709551616).
  vm_compute. reflexivity.
Defined.

(** A minus sign before a positive index within [unsigned long] is not
    refused either: the index taken is 2^64 minus the number written. *)
Theorem main_wraps_negative_index (size : Z -> N) (fopen_ok : string -> bool)
    (io_slow : bool) (prog : string) (n : N) :
  (0 < n)%N -> Z.of_N n <= ULONG_MAX ->
  main size fopen_ok io_slow [prog; String "-" (dec_N n)] =
  (compute_and_report size fopen_ok io_slow
     (Z.to_N (ULONG_MAX + 1 - Z.of_N n)) false, 0).
Proof.
  intros Hpos Hmax. pose proof (in_range_not_over n Hmax) as Hlt.
  pose proof (strtoul_minus_dec_N n EmptyString I) as E1. rewrite Hlt in E1.
  destruct (dec_N_not_flag n EmptyString "-"
              (or_intror (or_introl eq_refl))) as [Hs1 Hh1].
  cbn [append] in *.
  rewrite append_empty in *.
  assert (Hmod : (- Z.of_N n) mod (ULONG_MAX + 1) = ULONG_MAX + 1 - Z.of_N n).
  { symmetry. apply Z.mod_unique with (q := -1); unfold ULONG_MAX in *; lia. }
  rewrite Hmod in E1.
  apply main_proceed. cbn [tl parse_args]. rewrite Hs1, Hh1, E1.
  cbn [String.eqb andb].
  assert (Hn : (0 <? Z.to_N (ULONG_MAX + 1 - Z.of_N n))%N = true)
    by (apply N.ltb_lt; unfold ULONG_MAX in *; lia).
  rewrite Hn. reflexivity.
Qed.

Lemma main_wraps_negative_index_witness :
  main ndigits (fun _ => true) false ["fib"; "-18446744073709551606"]%string =
  (compute_and_report ndigits (fun _ => true) false 10 false, 0).
Proof.
  apply (main_wraps_negative_index ndigits (fun _ => true) false "fib"
           18446744073709551606).
  - reflexivity.
  - vm_compute. discriminate.
Defined.


Lemma main_of_invalid (size : Z -> N) (fopen_ok : string -> bool)
    (io_slow : bool) (prog : string) (args : list string) (arg : string) :
  parse_args args 20000000 false = Invalid arg ->
  rejects size fopen_ok io_slow prog (prog :: args) arg.
Proof.
  intros H. unfold rejects, main. cbn [hd tl]. rewrite H. repeat split.
Qed.

Lemma main_of_help (size : Z -> N) (fopen_ok : string -> bool)
    (io_slow : bool) (prog : string) (args : list string) :
  parse_args args 20000000 false = Help ->
  main size fopen_ok io_slow (prog :: args) = (print_usage prog, 0).
Proof. intros H. unfold main. cbn [hd tl]. rewrite H. reflexivity. Qed.

(** A numeral followed by anything that is not a digit, and the numeral
    0, are refused: error line, usage text, status 1, nothing computed,
    no file touched. *)
Theorem main_rejects_trailing_text (size : Z -> N) (fopen_ok : string -> bool)
    (io_slow : bool) (prog : string) (n : N) (rest : string) :
  stops rest -> rest <> EmptyString \/ n = 0%N ->
  rejects size fopen_ok io_slow prog [prog; (dec_N n ++ rest)%string]
    (dec_N n ++ rest)%string.
Proof.
  intros Hstops Hbad. apply main_of_invalid.
  destruct (dec_N_not_flag n rest EmptyString (or_introl eq_refl)) as [Hs Hh].
  cbn [append] in Hs, Hh.
  cbn [parse_args]. rewrite Hs, Hh, (strtoul_dec_N n rest Hstops).
  destruct Hbad as [Hrest | ->].
  - apply String.eqb_neq in Hrest. rewrite Hrest. reflexivity.
  - cbn. rewrite andb_false_r. reflexivity.
Qed.

Lemma main_rejects_trailing_text_witness :
  rejects ndigits (fun _ => true) false "fib" ["fib"; "100x"]%string "100x".
Proof.
  apply (main_rejects_trailing_text ndigits (fun _ => true) false "fib" 100 "x").
  - reflexivity.
  - left. discriminate.
Defined.

(** The empty argument, and an argument that starts with a character
    that is neither white space, nor a sign, nor a digit, are refused in
    the same way. *)
Theorem main_rejects_non_numeric (size : Z -> N) (fopen_ok : string -> bool)
    (io_slow : bool) (prog arg : string) :
  stops arg ->
  match arg with
  | EmptyString => True
  | String c _ => isspace c = false /\ c <> "-"%char /\ c <> "+"%char
  end ->
  rejects size fopen_ok io_slow prog [prog; arg] arg.
Proof.
  intros Hstops Hhead. apply main_of_invalid.
  destruct arg as [| c r]; [reflexivity |].
  destruct Hhead as (Hsp & Hm & Hp).
  cbn [parse_args String.eqb].
  destruct (Ascii.eqb_spec c "-") as [-> | _]; [contradiction |].
  rewrite (strtoul_plain c r Hsp Hm Hp).
  rewrite (read_digits_stops _ 0 false Hstops). reflexivity.
Qed.

Lemma main_rejects_non_numeric_witness :
  rejects ndigits (fun _ => true) false "fib" ["fib"; "ten"]%string "ten".
Proof.
  apply (main_rejects_non_numeric ndigits (fun _ => true) false "fib" "ten").
  - reflexivity.
  - repeat split; discriminate.
Defined.

(** The first argument that is [-h] decides: whatever was accepted
    before it and whatever follows, even something invalid, the program
    prints the usage text and returns 0, computing nothing. *)
Theorem main_help_first (size : Z -> N) (fopen_ok : string -> bool)
    (io_slow : bool) (prog : string) (pre rest : list string) :
  forallb accepted pre = true ->
  main size fopen_ok io_slow (prog :: pre ++ "-h"%string :: rest) =
    (print_usage prog, 0)
  /\ existsb is_compute (print_usage prog) = false
  /\ existsb is_file_event (print_usage prog) = false.
Proof.
  intros Hpre. split; [| split; reflexivity].
  apply main_of_help. rewrite (parse_args_prefix pre _ _ _ Hpre).
  apply parse_args_help.
Qed.

Lemma main_help_first_witness :
  main ndigits (fun _ => true) false ["fib"; "-s"; "5"; "-h"; "abc"]%string =
  (print_usage "fib", 0).
Proof.
  apply (main_help_first ndigits (fun _ => true) false "fib"
           ["-s"; "5"]%string ["abc"]%string).
  reflexivity.
Defined.

(** The first argument that is neither accepted nor [-h] decides as
    well: the indices and [-s] given before it are dropped, what follows
    is not looked at, and the program ends with the error line, the
    usage text and status 1. *)
Theorem main_invalid_first (size : Z -> N) (fopen_ok : string -> bool)
    (io_slow : bool) (prog : string) (pre rest : list string) (arg : string) :
  forallb accepted pre = true ->
  accepted arg = false -> arg <> "-h"%string ->
  rejects size fopen_ok io_slow prog (prog :: pre ++ arg :: rest) arg.
Proof.
  intros Hpre Harg Hh. apply main_of_invalid.
  rewrite (parse_args_prefix pre _ _ _ Hpre).
  apply parse_args_invalid; assumption.
Qed.

Lemma main_invalid_first_witness :
  rejects ndigits (fun _ => true) false "fib"
    ["fib"; "-s"; "5"; "0"; "-h"]%string "0".
Proof.
  apply (main_invalid_first ndigits (fun _ => true) false "fib"
           ["-s"; "5"]%string ["-h"]%string "0").
  - reflexivity.
  - reflexivity.
  - discriminate.
Defined.

(** When every argument is accepted the program computes: the index is
    the last one given (20000000 when none is), and the result is saved
    exactly when [-s] occurs, wherever it stands. *)
Theorem main_all_accepted (size : Z -> N) (fopen_ok : string -> bool)
    (io_slow : bool) (prog : string) (pre post : list string) (n : N) :
  forallb accepted pre = true ->
  forallb (fun a => String.eqb a "-s") post = true ->
  (0 < n)%N -> Z.of_N n <= ULONG_MAX ->
  main size fopen_ok io_slow (prog :: pre ++ dec_N n :: post) =
    (compute_and_report size fopen_ok io_slow n
       (existsb (fun a => String.eqb a "-s") (pre ++ post)), 0)
  /\ main size fopen_ok io_slow (prog :: post) =
    (compute_and_report size fopen_ok io_slow 20000000
       (existsb (fun a => String.eqb a "-s") post), 0).
Proof.
  intros Hpre Hpost Hpos Hmax.
  assert (Hflags : forall T S,
             parse_args post T S =
             Proceed T (S || existsb (fun a => String.eqb a "-s") post)).
  { clear - Hpost. induction post as [| a post IH]; intros T S.
    - cbn. rewrite orb_false_r. reflexivity.
    - cbn [forallb] in Hpost. apply andb_prop in Hpost.
      destruct Hpost as [Ha Hpost].
      cbn [parse_args existsb]. rewrite Ha, (IH Hpost). cbn [orb].
      rewrite orb_true_r. reflexivity. }
  split; apply main_proceed; cbn [tl].
  - rewrite (parse_args_prefix pre _ _ _ Hpre).
    destruct (dec_N_not_flag n EmptyString EmptyString (or_introl eq_refl))
      as [Hs Hh].
    cbn [append] in Hs, Hh. rewrite append_empty in Hs, Hh.
    pose proof (strtoul_dec_N n EmptyString I) as E.
    rewrite append_empty, (in_range_not_over n Hmax) in E.
    cbn [parse_args]. rewrite Hs, Hh, E. cbn [String.eqb andb].
    assert (Hn : (0 <? n)%N = true) by (apply N.ltb_lt; exact Hpos).
    rewrite Hn, Hflags, existsb_app. reflexivity.
  - rewrite Hflags. reflexivity.
Qed.

Lemma main_all_accepted_witness :
  main ndigits (fun _ => true) false ["fib"; "-s"; "5"; "7"; "-s"]%string =
    (compute_and_report ndigits (fun _ => true) false 7 true, 0)
  /\ main ndigits (fun _ => true) false ["fib"; "-s"]%string =
    (compute_and_report ndigits (fun _ => true) false 20000000 true, 0).
Proof.
  apply (main_all_accepted ndigits (fun _ => true) false "fib"
           ["-s"; "5"]%string ["-s"]%string 7).
  - reflexivity.
  - reflexivity.
  - reflexivity.
  - vm_compute. discriminate.
Defined.

(** ** Further properties of the engine *)

Lemma fib_pos_mono (n : nat) : 0 <= fib n <= fib (S n) /\ 0 < fib (S n).
Proof.
  induction n as [| n [[IH0 IH1] IH2]].
  - cbn. lia.
  - rewrite (fib_SS n). lia.
Qed.

(** The pair that [fast_fib_calc] returns is ordered and not negative,
    0 <= A <= B with B >= 1, and at every level below the top the
    difference that [mpz_sub] leaves in TEMP is at least F1, so no
    operand of a multiplication is ever negative. *)
Theorem fast_fib_calc_nonneg (n : N) (A B : Z) :
  0 <= fst (fast_fib_calc n A B) <= snd (fast_fib_calc n A B)
  /\ 1 <= snd (fast_fib_calc n A B)
  /\ (n <> 0%N ->
      let child := fast_fib_calc (n / 2) 0 0 in
      snd child <= rTEMP (run section_1 (enter A B child))).
Proof.
  rewrite !fast_fib_calc_fib. cbn [fst snd].
  pose proof (fib_pos_mono (N.to_nat n)) as Hn.
  pose proof (fib_pos_mono (N.to_nat (n / 2))) as Hk.
  split; [lia |]. split; [lia |].
  intros _. cbv zeta. unfold enter, run, section_1.
  cbn [fold_left exec_op set get rA rB rF0 rF1 rTEMP rF0_Q fst snd].
  rewrite Z.shiftl_mul_pow2 by lia. lia.
Qed.

Lemma fast_fib_calc_nonneg_witness :
  snd (fast_fib_calc (9 / 2) 0 0)
  <= rTEMP (run section_1 (enter 0 0 (fast_fib_calc (9 / 2) 0 0))).
Proof.
  destruct (fast_fib_calc_nonneg 9 0 0) as (_ & _ & H).
  apply H. discriminate.
Defined.

Lemma call_chain_length_ulong (n : N) :
  Z.of_N n <= ULONG_MAX -> (List.length (call_chain n) <= 65)%nat.
Proof.
  intros Hmax. rewrite call_chain_length. unfold depth.
  assert (N.log2_up (n + 1) <= 64)%N.
  { apply N.log2_up_le_pow2; [lia |].
    change (2 ^ 64)%N with 18446744073709551616%N.
    unfold ULONG_MAX in Hmax. lia. }
  lia.
Qed.

(** For every index an [unsigned long] can hold the chain of calls has
    at most 65 activations: a stack of 65 frames always suffices. *)
Theorem fast_fib_calc_stack_ulong (n : N) (A B : Z) :
  Z.of_N n <= ULONG_MAX ->
  (List.length (call_chain n) <= 65)%nat
  /\ fast_fib_calc_stack 65 n A B = Some (fast_fib_calc n A B).
Proof.
  intros Hmax. pose proof (call_chain_length_ulong n Hmax) as Hlen.
  split; [exact Hlen | apply stack_enough, Hlen].
Qed.

Lemma fast_fib_calc_stack_ulong_witness :
  (List.length (call_chain 18446744073709551615) <= 65)%nat
  /\ fast_fib_calc_stack 65 18446744073709551615 0 0 =
     Some (fast_fib_calc 18446744073709551615 0 0).
Proof.
  apply (fast_fib_calc_stack_ulong 18446744073709551615 0 0).
  vm_compute. discriminate.
Defined.

(** Whatever the interleaving of the two sections, they leave the
    child's pair in F0 and F1 untouched, 2*F1 - F0 in TEMP and F0*F0 in
    F0_Q, next to the two candidates in A and B. *)
Theorem sections_frame (sched : list bool) (A B F0 F1 : Z) :
  run (merge sched section_1 section_2) (enter A B (F0, F1)) =
  Frame (F0 * (2 * F1 - F0)) (F1 * F1 + F0 * F0) F0 F1 (2 * F1 - F0) (F0 * F0).
Proof.
  rewrite (run_merge sched _ _ _ sections_indep).
  unfold enter, run, section_1, section_2.
  cbn [app fold_left exec_op set get rA rB rF0 rF1 rTEMP rF0_Q fst snd].
  rewrite Z.shiftl_mul_pow2 by lia.
  replace (F1 * 2 ^ 1) with (2 * F1) by ring. reflexivity.
Qed.

Lemma fast_fib_calc_ops_pos (n : N) :
  n <> 0%N ->
  fast_fib_calc_ops n =
  fast_fib_calc_ops (n / 2) ++ section_1 ++ section_2
    ++ (if negb (N.modulo n 2 =? 0)%N then odd_fix else []).
Proof.
  intros Hn. rewrite fast_fib_calc_ops_equation_1.
  destruct (N.eq_dec n 0) as [E | E]; [contradiction | reflexivity].
Qed.

Lemma filter_mul_level (b : bool) :
  List.length (filter is_mul (section_1 ++ section_2
                                ++ (if b then odd_fix else []))) = 3%nat.
Proof. destruct b; reflexivity. Qed.

(** One call of [fast_fib_calc] makes three multiplications at each
    level of the recursion but the last, none there: 3 * (floor(log2 N)
    + 1) for N >= 1 and none for N = 0. *)
Theorem fast_fib_calc_mul_count (n : N) :
  List.length (filter is_mul (fast_fib_calc_ops n)) =
  (3 * (List.length (call_chain n) - 1))%nat
  /\ (n <> 0%N ->
      List.length (filter is_mul (fast_fib_calc_ops n)) =
      N.to_nat (3 * (N.log2 n + 1))).
Proof.
  assert (H : List.length (filter is_mul (fast_fib_calc_ops n)) =
              (3 * (List.length (call_chain n) - 1))%nat).
  { induction n as [n IH] using (well_founded_induction N.lt_wf_0).
    destruct (N.eq_dec n 0) as [E | E].
    - subst n. reflexivity.
    - rewrite (fast_fib_calc_ops_pos n E), (call_chain_pos n E).
      rewrite filter_app, length_app, filter_mul_level.
      rewrite (IH (n / 2)%N) by (apply N.div_lt; lia).
      cbn [List.length].
      assert (1 <= List.length (call_chain (n / 2)))%nat.
      { rewrite call_chain_length. unfold depth. lia. }
      lia. }
  split; [exact H |].
  intros Hn. rewrite H, call_chain_length, (depth_pos n Hn). lia.
Qed.

Lemma fast_fib_calc_mul_count_witness :
  List.length (filter is_mul (fast_fib_calc_ops 1000)) =
  N.to_nat (3 * (N.log2 1000 + 1)).
Proof.
  destruct (fast_fib_calc_mul_count 1000) as [_ H]. apply H. discriminate.
Defined.

(** ** Digits of a value and pieces of its numeral *)

Lemma string_of_uint_take (k : nat) :
  forall d, NilEmpty.string_of_uint (uint_take k d) =
            take k (NilEmpty.string_of_uint d).
Proof.
  unfold take. induction k as [| k IH]; intros d.
  - destruct d; reflexivity.
  - destruct d; cbn [uint_take NilEmpty.string_of_uint substring];
      rewrite ?IH; reflexivity.
Qed.

Lemma string_of_uint_drop (k : nat) :
  forall d, NilEmpty.string_of_uint (uint_drop k d) =
            drop k (NilEmpty.string_of_uint d).
Proof.
  induction k as [| k IH]; intros d; [reflexivity |].
  destruct d; cbn [uint_drop NilEmpty.string_of_uint drop];
    rewrite ?IH; reflexivity.
Qed.

Lemma uint_val_split (k : nat) :
  forall d acc,
    uint_val d acc = uint_val (uint_drop k d) (uint_val (uint_take k d) acc).
Proof.
  induction k as [| k IH]; intros d acc; [reflexivity |].
  destruct d; cbn [uint_drop uint_take uint_val]; rewrite <- ?IH; reflexivity.
Qed.

Lemma nb_digits_drop (k : nat) :
  forall d, Decimal.nb_digits (uint_drop k d) = (Decimal.nb_digits d - k)%nat.
Proof.
  induction k as [| k IH]; intros d; [cbn [uint_drop]; lia |].
  destruct d; cbn [uint_drop Decimal.nb_digits]; rewrite ?IH; reflexivity.
Qed.

Lemma head_nonzero_take (k : nat) (d : Decimal.uint) :
  head_nonzero (uint_take (S k) d) = head_nonzero d.
Proof. destruct d; reflexivity. Qed.

Lemma uint_val_div_mod (k : nat) (d : Decimal.uint) :
  let m := Z.of_nat (Decimal.nb_digits d - k) in
  uint_val d 0 / 10 ^ m = uint_val (uint_take k d) 0
  /\ uint_val d 0 mod 10 ^ m = uint_val (uint_drop k d) 0.
Proof.
  intros m.
  pose proof (uint_val_range (uint_drop k d)) as Hr.
  rewrite nb_digits_drop in Hr. fold m in Hr.
  pose proof (uint_val_split k d 0) as Hs.
  rewrite (uint_val_acc (uint_drop k d)), nb_digits_drop in Hs. fold m in Hs.
  split; symmetry.
  - apply Z.div_unique with (r := uint_val (uint_drop k d) 0); lia.
  - apply Z.mod_unique with (q := uint_val (uint_take k d) 0); lia.
Qed.

Lemma head_nonzero_normal (d : Decimal.uint) :
  head_nonzero d = true ->
  dec_N (Z.to_N (uint_val d 0)) = NilEmpty.string_of_uint d.
Proof.
  intros H. rewrite <- of_uint_val, N2Z.id, dec_N_numeral.
  rewrite DecimalN.Unsigned.to_of. destruct d; try discriminate; reflexivity.
Qed.

Lemma to_uint_head_nonzero (n : N) :
  n <> 0%N -> head_nonzero (N.to_uint n) = true.
Proof.
  intros Hn.
  pose proof (DecimalN.Unsigned.to_of (N.to_uint n)) as Hnorm.
  rewrite DecimalN.Unsigned.of_to in Hnorm.
  pose proof (to_uint_nonnil n) as Hnn.
  destruct (N.to_uint n) as [| l | | | | | | | | |] eqn:E;
    try reflexivity; [contradiction |].
  exfalso. rewrite DecimalFacts.unorm_D0 in Hnorm.
  unfold Decimal.unorm in Hnorm.
  destruct (Decimal.nzhead l) eqn:El;
    try (symmetry in Hnorm; apply (DecimalFacts.nzhead_nonzero l l);
         rewrite El; exact Hnorm).
  apply Hn. apply DecimalN.Unsigned.to_uint_inj. rewrite E, Hnorm. reflexivity.
Qed.

Lemma head_nonzero_lower (d : Decimal.uint) :
  head_nonzero d = true ->
  10 ^ Z.of_nat (Decimal.nb_digits d - 1) <= uint_val d 0.
Proof.
  intros H.
  destruct d as [| l | l | l | l | l | l | l | l | l | l];
    try discriminate;
    cbn [uint_val Decimal.nb_digits];
    rewrite uint_val_acc;
    replace (S (Decimal.nb_digits l) - 1)%nat with (Decimal.nb_digits l) by lia;
    pose proof (uint_val_range l);
    pose proof (Z.pow_pos_nonneg 10 (Z.of_nat (Decimal.nb_digits l))
                  ltac:(lia) ltac:(lia));
    lia.
Qed.

Lemma mpz_get_str_nonneg (A : Z) : 0 <= A -> mpz_get_str A = dec_N (Z.to_N A).
Proof. intros H. destruct A as [| p | p]; [reflexivity | reflexivity | lia]. Qed.

Lemma length_dec_N (n : N) :
  String.length (dec_N n) = Decimal.nb_digits (N.to_uint n).
Proof. rewrite dec_N_numeral. apply length_string_of_uint. Qed.

(** A positive value lies between the powers of ten that its number of
    digits gives. *)
Lemma dec_N_bounds (n : N) :
  n <> 0%N ->
  10 ^ Z.of_nat (String.length (dec_N n) - 1) <= Z.of_N n
  < 10 ^ Z.of_nat (String.length (dec_N n)).
Proof.
  intros Hn. rewrite length_dec_N, <- to_uint_val.
  split.
  - apply head_nonzero_lower, to_uint_head_nonzero, Hn.
  - apply uint_val_range.
Qed.

Lemma dec_N_length_le (n : N) (k : nat) :
  Z.of_N n < 10 ^ Z.of_nat k -> (1 <= k)%nat ->
  (String.length (dec_N n) <= k)%nat.
Proof.
  intros Hlt Hk. destruct (N.eq_dec n 0) as [-> | Hn]; [exact Hk |].
  destruct (dec_N_bounds n Hn) as [Hlo _].
  assert (H : Z.of_nat (String.length (dec_N n) - 1) < Z.of_nat k).
  { apply (Z.pow_lt_mono_r_iff 10); lia. }
  lia.
Qed.

Lemma first_digits_by_division (A : Z) (k : nat) :
  0 < A -> (1 <= k <= String.length (mpz_get_str A))%nat ->
  mpz_get_str (A / 10 ^ Z.of_nat (String.length (mpz_get_str A) - k)) =
  take k (mpz_get_str A).
Proof.
  intros HA Hk. rewrite (mpz_get_str_nonneg A) in * by lia.
  set (n := Z.to_N A) in *. set (d := N.to_uint n).
  assert (Hn : n <> 0%N) by (subst n; lia).
  assert (HAd : A = uint_val d 0) by (subst d; rewrite to_uint_val; subst n; lia).
  rewrite length_dec_N in *. fold d in Hk |- *.
  destruct (uint_val_div_mod k d) as [Hdiv _]. cbv zeta in Hdiv.
  rewrite HAd, Hdiv.
  pose proof (uint_val_range (uint_take k d)) as Hr.
  rewrite mpz_get_str_nonneg by lia.
  destruct k as [| k]; [lia |].
  rewrite head_nonzero_normal
    by (rewrite head_nonzero_take; apply to_uint_head_nonzero, Hn).
  rewrite string_of_uint_take, dec_N_numeral. reflexivity.
Qed.

Lemma last_digits_by_modulo (A : Z) (k : nat) :
  0 < A -> (k <= String.length (mpz_get_str A))%nat ->
  no_leading_zero (drop (String.length (mpz_get_str A) - k) (mpz_get_str A)) ->
  mpz_get_str (A mod 10 ^ Z.of_nat k) =
  drop (String.length (mpz_get_str A) - k) (mpz_get_str A).
Proof.
  intros HA Hk. rewrite (mpz_get_str_nonneg A) in * by lia.
  set (n := Z.to_N A) in *. set (d := N.to_uint n).
  assert (HAd : A = uint_val d 0) by (subst d; rewrite to_uint_val; subst n; lia).
  rewrite length_dec_N in *. fold d in Hk |- *.
  rewrite dec_N_numeral. fold d. rewrite <- string_of_uint_drop.
  intros Hnz.
  destruct (uint_val_div_mod (Decimal.nb_digits d - k) d) as [_ Hmod].
  cbv zeta in Hmod.
  replace (Decimal.nb_digits d - (Decimal.nb_digits d - k))%nat with k
    in Hmod by lia.
  rewrite HAd, Hmod.
  pose proof (uint_val_range (uint_drop (Decimal.nb_digits d - k) d)) as Hr.
  rewrite mpz_get_str_nonneg by lia.
  apply head_nonzero_normal.
  destruct (uint_drop (Decimal.nb_digits d - k) d);
    cbn [NilEmpty.string_of_uint no_leading_zero] in Hnz;
    try reflexivity; [contradiction | exfalso; apply Hnz; reflexivity].
Qed.

Lemma length_spaces (n : nat) : String.length (spaces n) = n.
Proof. induction n as [| n IH]; [reflexivity |]. cbn. rewrite IH. reflexivity. Qed.

Lemma length_app_string (s1 s2 : string) :
  String.length (s1 ++ s2) = (String.length s1 + String.length s2)%nat.
Proof.
  induction s1 as [| c s1 IH]; [reflexivity |]. cbn. rewrite IH. reflexivity.
Qed.

Lemma length_pad_left (w : nat) (s : string) :
  String.length (pad_left w s) = Nat.max w (String.length s).
Proof. unfold pad_left. rewrite length_app_string, length_spaces. lia. Qed.

Lemma pad_left_full (w : nat) (s : string) :
  (w <= String.length s)%nat -> pad_left w s = s.
Proof.
  intros H. unfold pad_left.
  replace (w - String.length s)%nat with O by lia. reflexivity.
Qed.

Lemma FILENAME_length (n : N) :
  Z.of_N n <= ULONG_MAX -> (String.length (FILENAME n) <= 34)%nat.
Proof.
  intros Hmax. unfold FILENAME. rewrite !length_app_string.
  assert (Hlen : (String.length (dec_N n) <= 20)%nat).
  { apply dec_N_length_le; [| lia].
    unfold ULONG_MAX in Hmax.
    change (10 ^ Z.of_nat 20) with 100000000000000000000.
    change (2 ^ 64) with 18446744073709551616 in Hmax. lia. }
  cbn [String.length]. lia.
Qed.

(** [FILENAME[50]] is large enough: for every index an [unsigned long]
    can hold, the name written by [sprintf] has at most 34 characters. *)
Theorem FILENAME_fits (n : N) :
  Z.of_N n <= ULONG_MAX ->
  (String.length (FILENAME n) <= 34)%nat /\ (String.length (FILENAME n) + 1 <= 50)%nat.
Proof. intros Hmax. pose proof (FILENAME_length n Hmax). lia. Qed.

Lemma FILENAME_fits_witness :
  (String.length (FILENAME 18446744073709551615) <= 34)%nat
  /\ (String.length (FILENAME 18446744073709551615) + 1 <= 50)%nat.
Proof.
  apply (FILENAME_fits 18446744073709551615). vm_compute. discriminate.
Defined.

(** ** The two ways of showing a long result *)

Lemma ndigits_pos (A : Z) :
  0 <= A -> ndigits A = N.of_nat (String.length (mpz_get_str A)).
Proof. intros H. unfold ndigits. rewrite Z.abs_eq by exact H. reflexivity. Qed.

Lemma remainder_width (A : Z) :
  String.length (pad_left 50 (mpz_get_str (A mod 10 ^ 50))) = 50%nat.
Proof.
  pose proof (Z.mod_pos_bound A (10 ^ 50) ltac:(lia)) as Hr.
  rewrite length_pad_left, mpz_get_str_nonneg by lia.
  assert (H : (String.length (dec_N (Z.to_N (A mod 10 ^ 50))) <= 50)%nat).
  { apply dec_N_length_le; [| lia]. rewrite Z2N.id by lia.
    change (10 ^ Z.of_nat 50) with (10 ^ 50). lia. }
  lia.
Qed.

(** The division and modulo of lines 122-129, for a positive value and
    a count that is exact or 1 too big: the first line carries the
    first 50 digits of the value (the first 49 when the count is too
    big), the second line a field of exactly 50 columns. *)
Theorem show_divmod_digits (A : Z) (nd : N) :
  0 < A -> (50 < nd)%N ->
  nd = ndigits A \/ nd = (ndigits A + 1)%N ->
  exists p,
    show_divmod A nd =
    [ Stdout ("First ~50 digits: "
              ++ take (if (nd =? ndigits A)%N then 50 else 49) (mpz_get_str A)
              ++ nl)%string;
      Stdout ("Last 50 digits:   " ++ p ++ nl)%string ]
    /\ String.length p = 50%nat.
Proof.
  intros HA Hnd Hcount.
  exists (pad_left 50 (mpz_get_str (A mod 10 ^ 50))).
  split; [| apply remainder_width].
  unfold show_divmod. f_equal. f_equal. f_equal. f_equal.
  rewrite (ndigits_pos A) in * by lia.
  set (len := String.length (mpz_get_str A)) in *.
  destruct Hcount as [-> | ->].
  - rewrite N.eqb_refl.
    replace (Z.of_N (N.of_nat len - 50)) with (Z.of_nat (len - 50)) by lia.
    apply first_digits_by_division; [exact HA | fold len; lia].
  - assert (E : (N.of_nat len + 1 =? N.of_nat len)%N = false)
      by (apply N.eqb_neq; lia).
    rewrite E.
    replace (Z.of_N (N.of_nat len + 1 - 50)) with (Z.of_nat (len - 49)) by lia.
    apply first_digits_by_division; [exact HA | fold len; lia].
Qed.

Lemma show_divmod_digits_witness :
  exists p,
    show_divmod 12345678912345678912345678912345678912345678912345678912345 59 =
    [ Stdout ("First ~50 digits: "
              ++ take 50 "12345678912345678912345678912345678912345678912345678912345"
              ++ nl)%string;
      Stdout ("Last 50 digits:   " ++ p ++ nl)%string ]
    /\ String.length p = 50%nat.
Proof.
  apply (show_divmod_digits
           12345678912345678912345678912345678912345678912345678912345 59).
  - reflexivity.
  - reflexivity.
  - left. vm_compute. reflexivity.
Defined.

(** With an exact count, and when the last 50 digits do not start with
    0, division and modulo show the very digits that cutting the
    decimal string shows: the two ways of printing a long result agree
    up to their labels. *)
Theorem show_divmod_agrees (A : Z) :
  0 < A -> (50 <= ndigits A)%N ->
  let str := mpz_get_str A in
  let last := drop (N.to_nat (ndigits A - 50)) str in
  no_leading_zero last ->
  show_divmod A (ndigits A) =
  [ Stdout ("First ~50 digits: " ++ take 50 str ++ nl)%string;
    Stdout ("Last 50 digits:   " ++ last ++ nl)%string ].
Proof.
  intros HA Hnd str last Hnz. subst last.
  rewrite (ndigits_pos A) in * by lia.
  fold str in Hnd, Hnz |- *.
  set (len := String.length str) in *.
  replace (N.to_nat (N.of_nat len - 50)) with (len - 50)%nat in * by lia.
  unfold show_divmod. fold str.
  replace (Z.of_N (N.of_nat len - 50)) with (Z.of_nat (len - 50)) by lia.
  assert (Hlen : (50 <= len)%nat) by lia.
  unfold len. unfold str. rewrite (first_digits_by_division A 50 HA)
    by (fold str; fold len; lia).
  change (10 ^ 50) with (10 ^ Z.of_nat 50).
  rewrite (last_digits_by_modulo A 50 HA)
    by (first [exact Hnz | fold str; fold len; lia]).
  rewrite pad_left_full by (rewrite length_drop; fold str; fold len; lia).
  reflexivity.
Qed.

Lemma show_divmod_agrees_witness :
  show_divmod 12345678912345678912345678912345678912345678912345678912345 59 =
  [ Stdout ("First ~50 digits: 12345678912345678912345678912345678912345678912345" ++ nl)%string;
    Stdout ("Last 50 digits:   12345678912345678912345678912345678912345678912345" ++ nl)%string ].
Proof.
  apply (show_divmod_agrees
           12345678912345678912345678912345678912345678912345678912345).
  - reflexivity.
  - vm_compute. discriminate.
  - vm_compute. discriminate.
Defined.

(** Whatever [mpz_sizeinbase] answers within what GMP documents, the
    offset of line 179 stays inside the decimal string of a value that
    is not negative: the first piece has exactly 50 characters, the
    last one 50, or 49 when the count is 1 too big. *)
Theorem show_string_pieces (size : Z -> N) (A : Z) :
  sizeinbase_contract size -> 0 <= A -> (100 < size A)%N ->
  let str := mpz_get_str A in
  let offset := N.to_nat (size A - 50) in
  (offset <= String.length str)%nat
  /\ String.length (take 50 str) = 50%nat
  /\ String.length (drop offset str) =
     (if (size A =? ndigits A)%N then 50 else 49)%nat.
Proof.
  intros Hc HA Hgt str offset. subst offset.
  pose proof (ndigits_pos A HA) as Hn. fold str in Hn.
  rewrite length_drop.
  destruct (Hc A) as [E | E]; rewrite E in *.
  - rewrite N.eqb_refl.
    split; [lia |]. split; [apply length_take; lia | lia].
  - assert (E' : (ndigits A + 1 =? ndigits A)%N = false)
      by (apply N.eqb_neq; lia).
    rewrite E'.
    split; [lia |]. split; [apply length_take; lia | lia].
Qed.

Lemma show_string_pieces_witness :
  let str := mpz_get_str (fst (fast_fib_calc 481 0 0)) in
  let offset := N.to_nat (ndigits (fst (fast_fib_calc 481 0 0)) + 1 - 50) in
  (offset <= String.length str)%nat
  /\ String.length (take 50 str) = 50%nat
  /\ String.length (drop offset str) = 49%nat.
Proof.
  apply (show_string_pieces (fun a => (ndigits a + 1)%N)
           (fst (fast_fib_calc 481 0 0))).
  - intros a. right. reflexivity.
  - vm_compute. discriminate.
  - vm_compute. reflexivity.
Defined.

(** ** Files *)

Lemma show_string_no_file_event (str : string) (nd : N) :
  filter is_file_event (show_string str nd) = [].
Proof. unfold show_string. destruct (100 <? nd)%N; reflexivity. Qed.

Lemma print_fib_info_unsaved_no_file (size : Z -> N)
    (fopen_ok : string -> bool) (A : Z) (n : N) :
  filter is_file_event (print_fib_info size fopen_ok A n false) = [].
Proof.
  unfold print_fib_info. cbn [negb andb orb filter digits_line is_file_event].
  rewrite andb_true_r.
  destruct (1000000 <? size A)%N; [reflexivity |].
  destruct ((size A <=? 100)%N || (size A <=? 1000000)%N); [| reflexivity].
  cbn [app]. apply show_string_no_file_event.
Qed.

(** Without [-s] the program touches no file: whatever the arguments
    that lead to a computation, its trace has no [fopen], no write and
    no [fclose], and exactly one call of the engine. *)
Theorem main_unsaved_no_file (size : Z -> N) (fopen_ok : string -> bool)
    (io_slow : bool) (argv : list string) (TARGET : N) :
  parse_args (tl argv) 20000000 false = Proceed TARGET false ->
  filter is_file_event (fst (main size fopen_ok io_slow argv)) = []
  /\ filter is_compute (fst (main size fopen_ok io_slow argv)) = [Compute TARGET].
Proof.
  intros Hp. rewrite (main_proceed _ _ _ _ _ _ Hp). cbn [fst].
  unfold compute_and_report. cbn [app].
  split.
  - cbn [filter is_file_event]. rewrite filter_app.
    rewrite print_fib_info_unsaved_no_file. destruct io_slow; reflexivity.
  - cbn [filter is_compute]. f_equal. rewrite filter_app.
    assert (H : filter is_compute
                  (print_fib_info size fopen_ok
                     (fst (fast_fib_calc TARGET 0 0)) TARGET false) = []).
    { unfold print_fib_info, show_divmod, show_string.
      cbn [negb andb orb]. rewrite andb_true_r.
      destruct (1000000 <? _)%N; [reflexivity |].
      destruct ((_ <=? 100)%N || _); [| reflexivity].
      destruct (100 <? _)%N; reflexivity. }
    rewrite H. destruct io_slow; reflexivity.
Qed.

Lemma main_unsaved_no_file_witness :
  filter is_file_event
    (fst (main ndigits (fun _ => true) true ["fib"; "30"]%string)) = []
  /\ filter is_compute
    (fst (main ndigits (fun _ => true) true ["fib"; "30"]%string)) = [Compute 30].
Proof.
  apply (main_unsaved_no_file ndigits (fun _ => true) true
           ["fib"; "30"]%string 30).
  vm_compute. reflexivity.
Defined.

(** With [-s], and when the file can be opened, the program opens
    Fibonacci_N.txt once, writes the line "F(N) = " followed by all the
    decimal digits of F(N) of the linear recurrence, however long, and
    closes the file; it touches no other file. *)
Theorem main_saves_full_value (size : Z -> N) (fopen_ok : string -> bool)
    (io_slow : bool) (argv : list string) (TARGET : N) :
  parse_args (tl argv) 20000000 false = Proceed TARGET true ->
  fopen_ok (FILENAME TARGET) = true ->
  filter is_file_event (fst (main size fopen_ok io_slow argv)) =
  [ Fopen (FILENAME TARGET) true;
    Fwrite (FILENAME TARGET)
      ("F(" ++ dec_N TARGET ++ ") = "
       ++ mpz_get_str (fib (N.to_nat TARGET)) ++ nl)%string;
    Fclose (FILENAME TARGET) ].
Proof.
  intros Hp Hopen. rewrite (main_proceed _ _ _ _ _ _ Hp). cbn [fst].
  unfold compute_and_report. cbn [app].
  cbn [filter is_file_event]. rewrite filter_app.
  rewrite print_fib_info_string by (left; reflexivity).
  rewrite fast_fib_calc_fib. cbn [fst].
  cbn [filter is_file_event digits_line]. rewrite filter_app.
  rewrite show_string_no_file_event. unfold save_block. rewrite Hopen.
  cbn [app filter is_file_event]. destruct io_slow; reflexivity.
Qed.

Lemma main_saves_full_value_witness :
  filter is_file_event
    (fst (main ndigits (fun _ => true) false ["fib"; "-s"; "20"]%string)) =
  [ Fopen "Fibonacci_20.txt" true;
    Fwrite "Fibonacci_20.txt" ("F(20) = 6765" ++ nl)%string;
    Fclose "Fibonacci_20.txt" ].
Proof.
  apply (main_saves_full_value ndigits (fun _ => true) false
           ["fib"; "-s"; "20"]%string 20).
  - vm_compute. reflexivity.
  - reflexivity.
Defined.

(** ** The index the program computes with *)

Lemma strtoul_range (s : string) : Z.of_N (fst (strtoul s)) <= ULONG_MAX.
Proof.
  unfold strtoul.
  destruct (skip_space s) as [| c r].
  - cbn. unfold ULONG_MAX. lia.
  - match goal with
    | |- context [let '(neg, s') := ?m in _] => destruct m as [neg s']
    end.
    destruct (read_digits s' 0 false) as [[v any] rest].
    destruct any; cbn [negb fst]; [| unfold ULONG_MAX; lia].
    destruct (Z.ltb_spec ULONG_MAX v) as [Hlt | Hle]; cbn [fst].
    + rewrite Z2N.id; unfold ULONG_MAX; lia.
    + destruct neg.
      * pose proof (Z.mod_pos_bound (- v) (ULONG_MAX + 1)
                      ltac:(unfold ULONG_MAX; lia)).
        rewrite Z2N.id; lia.
      * unfold ULONG_MAX in *. lia.
Qed.

Lemma parse_args_target (args : list string) :
  forall (T : N) (S : bool) (T' : N) (S' : bool),
    (0 < T)%N -> Z.of_N T <= ULONG_MAX ->
    parse_args args T S = Proceed T' S' ->
    (0 < T')%N /\ Z.of_N T' <= ULONG_MAX.
Proof.
  induction args as [| a args IH]; intros T S T' S' Hpos Hmax Hp.
  - cbn in Hp. injection Hp as <- <-. split; assumption.
  - cbn [parse_args] in Hp.
    destruct (String.eqb a "-s"); [apply (IH _ _ _ _ Hpos Hmax Hp) |].
    destruct (String.eqb a "-h"); [discriminate |].
    pose proof (strtoul_range a) as Hr.
    destruct (strtoul a) as [v rest]. cbn [fst] in Hr.
    destruct (String.eqb rest ""); cbn [andb] in Hp; [| discriminate].
    destruct (N.ltb_spec 0 v) as [Hv | Hv]; [| discriminate].
    apply (IH _ _ _ _ Hv Hr Hp).
Qed.

(** Whatever the command line, when the program goes on to compute,
    its index is at least 1 and at most [ULONG_MAX]; so the recursion
    needs at most 65 frames and the file name fits [FILENAME[50]]. *)
Theorem main_target_safe (argv : list string) (TARGET : N) (SAVE : bool) :
  parse_args (tl argv) 20000000 false = Proceed TARGET SAVE ->
  (0 < TARGET)%N /\ Z.of_N TARGET <= ULONG_MAX
  /\ fast_fib_calc_stack 65 TARGET 0 0 = Some (fast_fib_calc TARGET 0 0)
  /\ (String.length (FILENAME TARGET) + 1 <= 50)%nat.
Proof.
  intros Hp.
  assert (H0 : (0 < 20000000)%N) by reflexivity.
  assert (H1 : Z.of_N 20000000 <= ULONG_MAX) by (vm_compute; discriminate).
  destruct (parse_args_target _ _ _ _ _ H0 H1 Hp) as [Hpos Hmax].
  split; [exact Hpos |]. split; [exact Hmax |].
  split.
  - apply stack_enough, call_chain_length_ulong, Hmax.
  - pose proof (FILENAME_length TARGET Hmax). lia.
Qed.

Lemma main_target_safe_witness :
  (0 < 18446744073709551613)%N /\ Z.of_N 18446744073709551613 <= ULONG_MAX
  /\ fast_fib_calc_stack 65 18446744073709551613 0 0 =
     Some (fast_fib_calc 18446744073709551613 0 0)
  /\ (String.length (FILENAME 18446744073709551613) + 1 <= 50)%nat.
Proof.
  apply (main_target_safe ["fib"; "-s"; "-3"]%string 18446744073709551613 true).
  vm_compute. reflexivity.
Defined.

(** ** The format of the output *)

Lemma positive_of_long (A : Z) : 0 <= A -> (1 < ndigits A)%N -> 0 < A.
Proof.
  intros HA Hnd. destruct (Z.eq_dec A 0) as [-> | Hne]; [| lia].
  exfalso. change (ndigits 0) with 1%N in Hnd. lia.
Qed.

(** C8, as the code has it by design, for a value that is not negative
    and whose number of digits [mpz_sizeinbase] gives exactly.  The
    digit count is always printed, first.  With at most 100 digits the
    full value is printed.  With more than 100 digits, and when the
    result is saved or has at most 1000000 digits, exactly the first 50
    and the last 50 digits are printed, cut from the decimal string.
    Division by 10^(digits-50) and modulo 10^50 are used only when the
    result is not saved and has more than 1000000 digits: the quotient
    printed is exactly the first 50 digits, and the remainder, printed
    in a field of 50 columns, is the last 50 digits when these do not
    start with 0. *)
Theorem print_fib_info_format (size : Z -> N) (fopen_ok : string -> bool)
    (A : Z) (n : N) (SAVE : bool) :
  0 <= A -> size A = ndigits A ->
  let nd := ndigits A in
  let str := mpz_get_str A in
  let tr := print_fib_info size fopen_ok A n SAVE in
  let saving := if SAVE then save_block fopen_ok n str else [] in
  let first := take 50 str in
  let last := drop (N.to_nat (nd - 50)) str in
  hd_error tr = Some (digits_line n nd)
  /\ nd = N.of_nat (String.length str)
  /\ ((nd <= 100)%N ->
      tr = digits_line n nd :: saving
           ++ [Stdout ("Full number: " ++ str ++ nl)%string])
  /\ ((100 < nd)%N ->
      String.length first = 50%nat
      /\ String.length last = 50%nat
      /\ (exists mid, str = (first ++ mid ++ last)%string)
      /\ (SAVE = true \/ (nd <= 1000000)%N ->
          tr = digits_line n nd :: saving
               ++ [Stdout ("First 50 digits: " ++ first ++ nl)%string;
                   Stdout ("Last 50 digits:  " ++ last ++ nl)%string])
      /\ ((1000000 < nd)%N -> SAVE = false ->
          tr = [digits_line n nd;
                Stdout ("First ~50 digits: "
                        ++ mpz_get_str (A / 10 ^ Z.of_N (nd - 50)) ++ nl)%string;
                Stdout ("Last 50 digits:   "
                        ++ pad_left 50 (mpz_get_str (A mod 10 ^ 50)) ++ nl)%string]
          /\ mpz_get_str (A / 10 ^ Z.of_N (nd - 50)) = first
          /\ String.length (pad_left 50 (mpz_get_str (A mod 10 ^ 50))) = 50%nat
          /\ (no_leading_zero last ->
              pad_left 50 (mpz_get_str (A mod 10 ^ 50)) = last))).
Proof.
  intros HA Hexact nd str tr saving first last.
  pose proof (ndigits_pos A HA) as Hnd. fold nd str in Hnd.
  assert (Hlen : String.length str = N.to_nat nd) by lia.
  split; [subst tr; unfold print_fib_info; rewrite Hexact; reflexivity |].
  split; [exact Hnd |].
  split.
  { intros Hle. subst tr.
    rewrite print_fib_info_string by (right; rewrite Hexact; fold nd; lia).
    rewrite Hexact. fold nd str saving. unfold show_string.
    assert (Hlt : (100 <? nd)%N = false) by (apply N.ltb_ge; exact Hle).
    rewrite Hlt. reflexivity. }
  intros Hgt.
  assert (Hoff : N.to_nat (nd - 50) = (String.length str - 50)%nat) by lia.
  split; [subst first; apply length_take; lia |].
  split; [subst last; rewrite length_drop; lia |].
  split; [subst first last; apply first_last_split; lia |].
  split.
  { intros Hor. subst tr.
    rewrite print_fib_info_string by (rewrite Hexact; exact Hor).
    rewrite Hexact. fold nd str saving. unfold show_string.
    apply N.ltb_lt in Hgt. rewrite Hgt. reflexivity. }
  intros Hbig HS.
  assert (Hpos : 0 < A) by (apply positive_of_long; [exact HA | fold nd; lia]).
  split.
  { subst tr. rewrite HS.
    rewrite print_fib_info_divmod by (rewrite Hexact; exact Hbig).
    rewrite Hexact. reflexivity. }
  split.
  { subst first. unfold str.
    rewrite <- (first_digits_by_division A 50 Hpos) by (fold str; lia).
    fold str. do 3 f_equal. lia. }
  split; [apply remainder_width |].
  intros Hnz. subst last. rewrite Hoff in Hnz |- *.
  change (10 ^ 50) with (10 ^ Z.of_nat 50).
  unfold str in Hnz |- *.
  rewrite (last_digits_by_modulo A 50 Hpos) by (first [exact Hnz | fold str; lia]).
  apply pad_left_full. rewrite length_drop. fold str. lia.
Qed.

Lemma print_fib_info_format_witness :
  let A := fst (fast_fib_calc 481 0 0) in
  let str := mpz_get_str A in
  ndigits A = 101%N
  /\ print_fib_info ndigits (fun _ => true) A 481 false =
     digits_line 481 (ndigits A) :: []
       ++ [Stdout ("First 50 digits: " ++ take 50 str ++ nl)%string;
           Stdout ("Last 50 digits:  "
                   ++ drop (N.to_nat (ndigits A - 50)) str ++ nl)%string]
  /\ String.length (take 50 str) = 50%nat
  /\ String.length (drop (N.to_nat (ndigits A - 50)) str) = 50%nat.
Proof.
  intros A str.
  assert (H0 : 0 <= A) by (vm_compute; discriminate).
  assert (H100 : (100 < ndigits A)%N) by (vm_compute; reflexivity).
  assert (Hsmall : (ndigits A <= 1000000)%N) by (vm_compute; discriminate).
  destruct (print_fib_info_format ndigits (fun _ => true) A 481 false
              H0 eq_refl) as (_ & _ & _ & Hlong).
  destruct (Hlong H100) as (Hfirst & Hlast & _ & Hstring & _).
  split; [vm_compute; reflexivity |].
  split; [apply Hstring; right; exact Hsmall |].
  split; [exact Hfirst | exact Hlast].
Defined.
